(** * gh-mutual-follow: the asymmetric-follow calculator, the GitHub client
      and the Bubble Tea reducer, embedded from the Go sources

    Sources embedded here:
    - [internal/github/client.go] (and its older copy [internal/cli/cli.go]):
      [GetUser], [GetMutualFollowsData];
    - [internal/tui/commands.go]: [clearStatusMsg], [loadDataCmd];
    - [internal/tui/model.go] (and the older monolithic [main.go]):
      [tuiModel], [NewModel], [Update].

    Go values are modelled as follows.
    - A Go [string] is a [string] of 8-bit [ascii] characters, that is a byte
      string; [<] on Go strings is the byte-wise lexicographic order,
      [String.ltb].
    - A Go [map[string]bool] is a [gmap string bool].  Ranging over a map
      visits its keys in an order the language leaves unspecified: the order
      is an explicit argument, a [RangeOrder].
    - A nillable [error] is an [option error].
    - A [tea.Cmd] is described by the work it stands for; [nil] is [None]. *)

From Stdlib Require Import String Ascii ZArith List Sorted.
From stdpp Require Import base option list gmap strings sorting.

Local Open Scope Z_scope.

(** ** Go errors *)

(** [errors.New(s)] and [fmt.Errorf("...%w", err)]: the latter keeps the
    formatted message and the wrapped cause. *)
Inductive error : Type :=
| errorString (s : string)
| wrapError (msg : string) (err : error).

Definition Error (e : error) : string :=
  match e with
  | errorString s => s
  | wrapError msg _ => msg
  end.

Definition Unwrap (e : error) : option error :=
  match e with
  | errorString _ => None
  | wrapError _ err => Some err
  end.

(** [fmt.Errorf(prefix + "%w", err)] *)
Definition Errorf_w (prefix : string) (err : error) : error :=
  wrapError (prefix +:+ Error err) err.

#[global] Instance error_eq_dec : EqDecision error.
Proof. solve_decision. Defined.

(** ** Ranging over a Go map *)

(** The keys of [m] in the canonical order of [gmap]. *)
Definition map_keys (m : gmap string bool) : list string := (map_to_list m).*1.

(** An iteration order: for every map, some enumeration of its keys, each
    key once.  Go promises nothing more of [for u := range m]. *)
Record RangeOrder : Type := {
  range_keys : gmap string bool → list string;
  range_keys_perm : ∀ m, range_keys m ≡ₚ map_keys m
}.

Definition canonicalOrder : RangeOrder :=
  {| range_keys := map_keys; range_keys_perm := λ m, reflexivity (map_keys m) |}.

(** Another admissible order, used to exercise order independence. *)
Definition reversedOrder : RangeOrder :=
  {| range_keys := λ m, reverse (map_keys m);
     range_keys_perm := λ m, reverse_Permutation (map_keys m) |}.

Module github.

(** [m := make(map[string]bool); for _, u := range l { m[u] = true }] *)
Definition toSet (l : list string) : gmap string bool :=
  foldl (λ m u, <[u := true]> m) ∅ l.

(** [u := make(map[string]bool);
     for _, x := range l { if _, exists := other[x]; !exists { u[x] = true } }] *)
Definition uniqueOnly (other : gmap string bool) (l : list string) : gmap string bool :=
  foldl (λ m u, match other !! u with
                | Some _ => m
                | None => <[u := true]> m
                end) ∅ l.

(** [for u := range m { out = append(out, u) }] *)
Definition collectKeys (ord : RangeOrder) (m : gmap string bool) : list string :=
  foldl (λ out u, out ++ [u]) [] (range_keys ord m).

(** [GetMutualFollowsData] of client.go.  The two result maps range over
    disjoint key sets, so they are the same map only when both are empty:
    one [RangeOrder] for both loops loses no behaviour. *)
Definition GetMutualFollowsData (ord : RangeOrder) (authenticatedUser : string)
    (following followers : list string) : list string * list string :=
  let followingMap := toSet following in
  let followersMap := toSet followers in
  let uniqueOnlyFollowing := uniqueOnly followersMap following in
  let uniqueOnlyFollowers := uniqueOnly followingMap followers in
  let onlyFollowing := collectKeys ord uniqueOnlyFollowing in
  let onlyFollowers := collectKeys ord uniqueOnlyFollowers in
  (onlyFollowing, onlyFollowers).

(** *** [GetUser]: the regular expression of client.go

    [regexp.MustCompile(`Logged in to github.com account (\S+)`)] and
    [FindStringSubmatch] belong to Go's standard library.  The expression is
    a literal, one [.], a literal and a greedy capture that ends it, so a
    match from a given start is unique and the leftmost match is found by
    trying the start positions from left to right.  The pieces follow
    [regexp/syntax] and [unicode/utf8]:
    - [.] is any rune but a newline, a rune being what
      [utf8.DecodeRuneInString] reads (an ill-formed byte is one rune);
    - [\S] is any rune outside [\t\n\f\r ].  Those five are ASCII, and no byte
      of a longer encoding is ASCII, so a greedy run of [\S] is the longest
      run of bytes outside the five. *)

Definition byteN (c : ascii) : N := N_of_ascii c.

Definition between (lo hi : N) (c : ascii) : bool :=
  ((lo <=? byteN c) && (byteN c <=? hi))%N.

(** [first] and [acceptRanges] of unicode/utf8: for a leading byte, the
    length of the encoding and the range allowed for the second byte; [None]
    for ASCII and for bytes that start no encoding. *)
Definition utf8First (s0 : ascii) : option (nat * N * N) :=
  if between 0xC2 0xDF s0 then Some (2%nat, 0x80, 0xBF)%N
  else if between 0xE0 0xE0 s0 then Some (3%nat, 0xA0, 0xBF)%N
  else if between 0xE1 0xEC s0 then Some (3%nat, 0x80, 0xBF)%N
  else if between 0xED 0xED s0 then Some (3%nat, 0x80, 0x9F)%N
  else if between 0xEE 0xEF s0 then Some (3%nat, 0x80, 0xBF)%N
  else if between 0xF0 0xF0 s0 then Some (4%nat, 0x90, 0xBF)%N
  else if between 0xF1 0xF3 s0 then Some (4%nat, 0x80, 0xBF)%N
  else if between 0xF4 0xF4 s0 then Some (4%nat, 0x80, 0x8F)%N
  else None.

(** The size [utf8.DecodeRuneInString] returns: 0 on the empty string, 1 on
    ASCII and on anything ill-formed or cut short. *)
Definition DecodeRuneInString_size (s : string) : nat :=
  match s with
  | EmptyString => 0
  | String s0 t =>
    match utf8First s0 with
    | None => 1
    | Some (sz, lo, hi) =>
      if (String.length s <? sz)%nat then 1 else
      match t with
      | EmptyString => 1
      | String s1 t1 =>
        if negb (between lo hi s1) then 1 else
        if (sz <=? 2)%nat then 2 else
        match t1 with
        | EmptyString => 1
        | String s2 t2 =>
          if negb (between 0x80 0xBF s2) then 1 else
          if (sz <=? 3)%nat then 3 else
          match t2 with
          | EmptyString => 1
          | String s3 _ => if negb (between 0x80 0xBF s3) then 1 else 4
          end
        end
      end
    end
  end%nat.

Definition newline : ascii := "010"%char.

(** [\s] of regexp/syntax: tab, newline, form feed, carriage return, space. *)
Definition isSpace (c : ascii) : bool :=
  ((byteN c =? 9) || (byteN c =? 10) || (byteN c =? 12) || (byteN c =? 13)
   || (byteN c =? 32))%N.

Fixpoint splitAt (n : nat) (s : string) : string * string :=
  match n, s with
  | S n', String c s' => let '(a, b) := splitAt n' s' in (String c a, b)
  | _, _ => (EmptyString, s)
  end.

(** A literal piece of the expression: the rest of [s] after [p]. *)
Fixpoint matchLiteral (p s : string) : option string :=
  match p, s with
  | EmptyString, _ => Some s
  | String a p', String b s' => if Ascii.eqb a b then matchLiteral p' s' else None
  | String _ _, EmptyString => None
  end.

(** [.]: one rune that is not a newline; the rune's bytes and the rest. *)
Definition matchDot (s : string) : option (string * string) :=
  match s with
  | EmptyString => None
  | String c _ =>
    if Ascii.eqb c newline then None else Some (splitAt (DecodeRuneInString_size s) s)
  end.

(** Greedy [\S+] at the end of the expression: the longest run, when it is
    not empty. *)
Fixpoint takeNotSpace (s : string) : string :=
  match s with
  | EmptyString => EmptyString
  | String c s' => if isSpace c then EmptyString else String c (takeNotSpace s')
  end.

Definition lit1 : string := "Logged in to github".
Definition lit2 : string := "com account ".

(** The match that starts at the first byte of [s], if any: the text matched
    and the text captured. *)
Definition matchHere (s : string) : option (string * string) :=
  match matchLiteral lit1 s with
  | None => None
  | Some s1 =>
    match matchDot s1 with
    | None => None
    | Some (r, s2) =>
      match matchLiteral lit2 s2 with
      | None => None
      | Some s3 =>
        let name := takeNotSpace s3 in
        match name with
        | EmptyString => None
        | _ => Some (lit1 +:+ r +:+ lit2 +:+ name, name)
        end
      end
    end
  end.

(** [re.FindStringSubmatch(s)]: [nil] without a match, else the leftmost
    match followed by its capture. *)
Fixpoint FindStringSubmatch (s : string) : list string :=
  match matchHere s with
  | Some (whole, name) => [whole; name]
  | None =>
    match s with
    | EmptyString => []
    | String _ s' => FindStringSubmatch s'
    end
  end.

(** [GetUser] of client.go.  [run] is the command runner ([c.runner.run],
    [runCommand] in the older cli.go): a byte output and an error. *)
Definition GetUser (run : string → list string → string * option error)
    : string * option error :=
  let '(output, err) := run "gh" ["auth"; "status"] in
  match err with
  | Some e => (EmptyString, Some (Errorf_w "failed to run 'gh auth status': " e))
  | None =>
    let matches := FindStringSubmatch output in
    if (length matches <? 2)%nat then
      (EmptyString,
       Some (errorString "could not find authenticated user in 'gh auth status' output"))
    else (nth 1 matches EmptyString, None)
  end.

End github.


(** ** The terminal UI *)

Module tui.

(** [type item string]; [FilterValue] is the string itself. *)
Definition item : Type := string.
Definition FilterValue (i : item) : string := i.

(** *** Messages

    The message types [Update] switches on.  A [tea.KeyMsg] is kept as what
    its [String()] returns, the only thing [Update] reads of it; [otherMsg]
    stands for every message type [Update] has no case for. *)
Inductive Msg : Type :=
| WindowSizeMsg (Width Height : Z)
| dataLoadedMsg (username : string) (onlyFollowing onlyFollowers : list item)
    (err : option error)
| errorMsg (err : option error)
| statusMsg (s : string)
| KeyMsg (key : string)
| otherMsg.

(** *** Programs over the [github.Client] interface

    The closures behind a [tea.Cmd] call the client and return one message.
    A program is the tree of those calls: each node is one method of the
    interface with the continuation that receives what the method returned. *)
Inductive Prog (A : Type) : Type :=
| Ret (a : A)
| callGetUser (k : string * option error → Prog A)
| callGetFollowing (user : string) (k : list string * option error → Prog A)
| callGetFollowers (user : string) (k : list string * option error → Prog A)
| callUnfollow (user : string) (k : option error → Prog A)
| callFollow (user : string) (k : option error → Prog A).
Arguments Ret {A} a.
Arguments callGetUser {A} k.
Arguments callGetFollowing {A} user k.
Arguments callGetFollowers {A} user k.
Arguments callUnfollow {A} user k.
Arguments callFollow {A} user k.

(** The name and argument of a call, for traces. *)
Inductive Call : Type :=
| GetUserCall
| GetFollowingCall (user : string)
| GetFollowersCall (user : string)
| UnfollowCall (user : string)
| FollowCall (user : string).

#[global] Instance Call_eq_dec : EqDecision Call.
Proof. solve_decision. Defined.

(** An implementation of [github.Client] over a state [W] (the remote
    service, or the closures of the test's [mockGitHubClient]). *)
Record Client (W : Type) : Type := {
  GetUser : W → (string * option error) * W;
  GetFollowing : string → W → (list string * option error) * W;
  GetFollowers : string → W → (list string * option error) * W;
  Unfollow : string → W → option error * W;
  Follow : string → W → option error * W
}.
Arguments GetUser {W} c w.
Arguments GetFollowing {W} c user w.
Arguments GetFollowers {W} c user w.
Arguments Unfollow {W} c user w.
Arguments Follow {W} c user w.

(** Running a program against a client: the value returned, the final state
    and the calls made, in order. *)
Fixpoint run {W A : Type} (c : Client W) (p : Prog A) (w : W) : A * W * list Call :=
  match p with
  | Ret a => (a, w, [])
  | callGetUser k =>
      let '(r, w1) := GetUser c w in
      let '(a, w2, t) := run c (k r) w1 in (a, w2, GetUserCall :: t)
  | callGetFollowing user k =>
      let '(r, w1) := GetFollowing c user w in
      let '(a, w2, t) := run c (k r) w1 in (a, w2, GetFollowingCall user :: t)
  | callGetFollowers user k =>
      let '(r, w1) := GetFollowers c user w in
      let '(a, w2, t) := run c (k r) w1 in (a, w2, GetFollowersCall user :: t)
  | callUnfollow user k =>
      let '(r, w1) := Unfollow c user w in
      let '(a, w2, t) := run c (k r) w1 in (a, w2, UnfollowCall user :: t)
  | callFollow user k =>
      let '(r, w1) := Follow c user w in
      let '(a, w2, t) := run c (k r) w1 in (a, w2, FollowCall user :: t)
  end.

(** *** [sort.Slice]

    [sort.Slice(s, less)] leaves [s] a permutation of itself in which no
    element is [less] than the one before it.  For [less] the order of Go
    strings there is one such list ([sort_Slice_unique] below); it is computed
    here by a merge sort. *)
Definition notAfter (less : item → item → bool) (x y : item) : Prop := less y x = false.

#[global] Instance notAfter_dec less : RelDecision (notAfter less).
Proof. intros x y. unfold notAfter. apply _. Defined.

Definition sort_Slice (less : item → item → bool) (s : list item) : list item :=
  merge_sort (notAfter less) s.

(** [func(i, j int) bool { return s[i].FilterValue() < s[j].FilterValue() }] *)
Definition lessByFilterValue (x y : item) : bool :=
  String.ltb (FilterValue x) (FilterValue y).

(** *** [loadDataCmd] of commands.go *)

(** The closure [loadDataCmd] returns.  [ord] is the order in which
    [GetMutualFollowsData] ranges over its maps. *)
Definition loadData (ord : RangeOrder) : Prog Msg :=
  callGetUser (λ '(username, err),
    match err with
    | Some e => Ret (errorMsg (Some (Errorf_w "failed to get user: " e)))
    | None =>
      callGetFollowing username (λ '(following, err),
        match err with
        | Some e => Ret (errorMsg (Some (Errorf_w "failed to get following: " e)))
        | None =>
          callGetFollowers username (λ '(followers, err),
            match err with
            | Some e => Ret (errorMsg (Some (Errorf_w "failed to get followers: " e)))
            | None =>
              let '(onlyFollowingStr, onlyFollowersStr) :=
                github.GetMutualFollowsData ord username following followers in
              let onlyFollowingItems : list item := onlyFollowingStr in
              let onlyFollowingItems := sort_Slice lessByFilterValue onlyFollowingItems in
              let onlyFollowersItems : list item := onlyFollowersStr in
              let onlyFollowersItems := sort_Slice lessByFilterValue onlyFollowersItems in
              Ret (dataLoadedMsg username onlyFollowingItems onlyFollowersItems None)
            end)
        end)
    end).

(** The closures of the [enter] case of [Update]. *)
Definition unfollowSelected (selectedItem : item) : Prog Msg :=
  callUnfollow selectedItem (λ err,
    match err with
    | Some e =>
        Ret (errorMsg (Some (Errorf_w ("failed to unfollow " +:+ selectedItem +:+ ": ") e)))
    | None => Ret (statusMsg ("Unfollowed " +:+ selectedItem +:+ "!"))
    end).

Definition followSelected (selectedItem : item) : Prog Msg :=
  callFollow selectedItem (λ err,
    match err with
    | Some e =>
        Ret (errorMsg (Some (Errorf_w ("failed to follow " +:+ selectedItem +:+ ": ") e)))
    | None => Ret (statusMsg ("Followed " +:+ selectedItem +:+ "!"))
    end).

(** The closure of the [a] case: every item in turn, errors dropped.  Its
    assignment to [m.isBulkActionInProgress] writes to the closure's own copy
    of the model and reaches no one. *)
Fixpoint bulkLoop (action : string) (items : list item) (done : Prog Msg) : Prog Msg :=
  match items with
  | [] => done
  | user :: rest =>
      if String.eqb action "unfollow"
      then callUnfollow user (λ _, bulkLoop action rest done)
      else callFollow user (λ _, bulkLoop action rest done)
  end.

Definition bulkAction (action : string) (items : list item) : Prog Msg :=
  bulkLoop action items (Ret (statusMsg ("Bulk " +:+ action +:+ " complete!"))).

(** *** The list widget

    [list.Model] of charmbracelet/bubbles is a library of its own: [Update]
    uses it through the operations below, of which the proofs need only that
    [Items] returns what [SetItems] (or [list.New]) stored.  [WCmd] is the
    type of the commands the widget hands back. *)
Class ListWidget (L WCmd : Type) : Type := {
  list_New : list item → Z → Z → L;
  Items : L → list item;
  SetItems : L → list item → L;
  SetHeight : L → Z → L;
  SetWidth : L → Z → L;
  SelectedItem : L → option item;
  list_Update : L → Msg → L * option WCmd;
  Items_list_New : ∀ i w h, Items (list_New i w h) = i;
  Items_SetItems : ∀ l i, Items (SetItems l i) = i
}.

Definition followingPane : Z := 0.
Definition followersPane : Z := 1.

Section reducer.
Context {L WCmd : Type} `{!ListWidget L WCmd}.
Variable ord : RangeOrder.

(** *** Commands: a non-nil [tea.Cmd], by the work it stands for *)
Inductive Cmd : Type :=
| Quit
| Tick (d : Z) (msg : Msg)
| Func (p : Prog Msg)
| BatchCmd (cmds : list Cmd)
| WidgetCmd (c : WCmd).

(** [tea.Batch]: nil commands are dropped, and nothing left is nil. *)
Definition Batch (cmds : list (option Cmd)) : option Cmd :=
  match omap id cmds with
  | [] => None
  | valid => Some (BatchCmd valid)
  end.

Definition Second : Z := 1000000000.

(** [clearStatusMsg] of commands.go *)
Definition clearStatusMsg : Cmd := Tick (3 * Second) (statusMsg "").

Definition loadDataCmd : Cmd := Func (loadData ord).

(** *** The model

    [tuiModel] of model.go, without [client] and [styles]: both are set once
    by [NewModel] and never assigned again; the client is what runs the
    programs of the commands. *)
Record tuiModel : Type := {
  username : string;
  onlyFollowing : list item;
  onlyFollowers : list item;
  activePane : Z;
  followingList : L;
  followersList : L;
  loading : bool;
  err : option error;
  quitting : bool;
  statusMessage : string;
  isBulkActionInProgress : bool;
  width : Z;
  height : Z
}.

(** Field assignments [m.f = v]. *)
Definition set_username (v : string) (m : tuiModel) : tuiModel :=
  {| username := v; onlyFollowing := onlyFollowing m; onlyFollowers := onlyFollowers m;
     activePane := activePane m; followingList := followingList m;
     followersList := followersList m; loading := loading m; err := err m;
     quitting := quitting m; statusMessage := statusMessage m;
     isBulkActionInProgress := isBulkActionInProgress m;
     width := width m; height := height m |}.
Definition set_onlyFollowing (v : list item) (m : tuiModel) : tuiModel :=
  {| username := username m; onlyFollowing := v; onlyFollowers := onlyFollowers m;
     activePane := activePane m; followingList := followingList m;
     followersList := followersList m; loading := loading m; err := err m;
     quitting := quitting m; statusMessage := statusMessage m;
     isBulkActionInProgress := isBulkActionInProgress m;
     width := width m; height := height m |}.
Definition set_onlyFollowers (v : list item) (m : tuiModel) : tuiModel :=
  {| username := username m; onlyFollowing := onlyFollowing m; onlyFollowers := v;
     activePane := activePane m; followingList := followingList m;
     followersList := followersList m; loading := loading m; err := err m;
     quitting := quitting m; statusMessage := statusMessage m;
     isBulkActionInProgress := isBulkActionInProgress m;
     width := width m; height := height m |}.
Definition set_activePane (v : Z) (m : tuiModel) : tuiModel :=
  {| username := username m; onlyFollowing := onlyFollowing m;
     onlyFollowers := onlyFollowers m;
     activePane := v; followingList := followingList m;
     followersList := followersList m; loading := loading m; err := err m;
     quitting := quitting m; statusMessage := statusMessage m;
     isBulkActionInProgress := isBulkActionInProgress m;
     width := width m; height := height m |}.
Definition set_followingList (v : L) (m : tuiModel) : tuiModel :=
  {| username := username m; onlyFollowing := onlyFollowing m;
     onlyFollowers := onlyFollowers m;
     activePane := activePane m; followingList := v;
     followersList := followersList m; loading := loading m; err := err m;
     quitting := quitting m; statusMessage := statusMessage m;
     isBulkActionInProgress := isBulkActionInProgress m;
     width := width m; height := height m |}.
Definition set_followersList (v : L) (m : tuiModel) : tuiModel :=
  {| username := username m; onlyFollowing := onlyFollowing m;
     onlyFollowers := onlyFollowers m;
     activePane := activePane m; followingList := followingList m;
     followersList := v; loading := loading m; err := err m;
     quitting := quitting m; statusMessage := statusMessage m;
     isBulkActionInProgress := isBulkActionInProgress m;
     width := width m; height := height m |}.
Definition set_loading (v : bool) (m : tuiModel) : tuiModel :=
  {| username := username m; onlyFollowing := onlyFollowing m;
     onlyFollowers := onlyFollowers m;
     activePane := activePane m; followingList := followingList m;
     followersList := followersList m; loading := v; err := err m;
     quitting := quitting m; statusMessage := statusMessage m;
     isBulkActionInProgress := isBulkActionInProgress m;
     width := width m; height := height m |}.
Definition set_err (v : option error) (m : tuiModel) : tuiModel :=
  {| username := username m; onlyFollowing := onlyFollowing m;
     onlyFollowers := onlyFollowers m;
     activePane := activePane m; followingList := followingList m;
     followersList := followersList m; loading := loading m; err := v;
     quitting := quitting m; statusMessage := statusMessage m;
     isBulkActionInProgress := isBulkActionInProgress m;
     width := width m; height := height m |}.
Definition set_quitting (v : bool) (m : tuiModel) : tuiModel :=
  {| username := username m; onlyFollowing := onlyFollowing m;
     onlyFollowers := onlyFollowers m;
     activePane := activePane m; followingList := followingList m;
     followersList := followersList m; loading := loading m; err := err m;
     quitting := v; statusMessage := statusMessage m;
     isBulkActionInProgress := isBulkActionInProgress m;
     width := width m; height := height m |}.
Definition set_statusMessage (v : string) (m : tuiModel) : tuiModel :=
  {| username := username m; onlyFollowing := onlyFollowing m;
     onlyFollowers := onlyFollowers m;
     activePane := activePane m; followingList := followingList m;
     followersList := followersList m; loading := loading m; err := err m;
     quitting := quitting m; statusMessage := v;
     isBulkActionInProgress := isBulkActionInProgress m;
     width := width m; height := height m |}.
Definition set_isBulkActionInProgress (v : bool) (m : tuiModel) : tuiModel :=
  {| username := username m; onlyFollowing := onlyFollowing m;
     onlyFollowers := onlyFollowers m;
     activePane := activePane m; followingList := followingList m;
     followersList := followersList m; loading := loading m; err := err m;
     quitting := quitting m; statusMessage := statusMessage m;
     isBulkActionInProgress := v;
     width := width m; height := height m |}.
Definition set_size (w h : Z) (m : tuiModel) : tuiModel :=
  {| username := username m; onlyFollowing := onlyFollowing m;
     onlyFollowers := onlyFollowers m;
     activePane := activePane m; followingList := followingList m;
     followersList := followersList m; loading := loading m; err := err m;
     quitting := quitting m; statusMessage := statusMessage m;
     isBulkActionInProgress := isBulkActionInProgress m;
     width := w; height := h |}.

(** [NewModel] of model.go.  The settings made on the two fresh lists (no
    title, default key map, ten items a page) are the widget's business. *)
Definition NewModel : tuiModel :=
  {| username := EmptyString; onlyFollowing := []; onlyFollowers := [];
     activePane := followingPane;
     followingList := list_New [] 0 0; followersList := list_New [] 0 0;
     loading := true; err := None; quitting := false;
     statusMessage := EmptyString; isBulkActionInProgress := false;
     width := 0; height := 0 |}.

(** [Init] *)
Definition Init (m : tuiModel) : option Cmd := Some loadDataCmd.

(** *** [Update] of model.go *)

Definition keyIs (key s : string) : bool := String.eqb key s.

(** [msg.String() == "q" || msg.String() == "ctrl+c"] *)
Definition isQuitKey (key : string) : bool := keyIs key "q" || keyIs key "ctrl+c".

(** The [tea.KeyMsg] case once neither a bulk action nor an error holds the
    keys back: the inner [switch msg.String()]. *)
Definition handleKey (m : tuiModel) (key : string) : tuiModel * option Cmd :=
  if keyIs key "q" || keyIs key "ctrl+c" then
    (set_quitting true m, Some Quit)
  else if keyIs key "tab" || keyIs key "shift+tab" then
    let m := if activePane m =? followingPane
             then set_activePane followersPane m
             else set_activePane followingPane m in
    (m, None)
  else if keyIs key "r" then
    let m := set_loading true m in
    let m := set_err None m in
    (m, Some loadDataCmd)
  else if keyIs key "enter" then
    let actionCmd : option Cmd :=
      if activePane m =? followingPane then
        match SelectedItem (followingList m) with
        | Some selectedItem => Some (Func (unfollowSelected selectedItem))
        | None => None
        end
      else
        match SelectedItem (followersList m) with
        | Some selectedItem => Some (Func (followSelected selectedItem))
        | None => None
        end in
    match actionCmd with
    | Some c =>
        let m := set_loading true m in
        (m, Batch [Some c; Some loadDataCmd])
    | None => (m, Batch [])
    end
  else if keyIs key "a" then
    let '(items, action) :=
      if activePane m =? followingPane
      then (Items (followingList m), "unfollow")
      else (Items (followersList m), "follow") in
    if (length items =? 0)%nat then (m, None)
    else
      let m := set_isBulkActionInProgress true m in
      let m := set_statusMessage ("Bulk " +:+ action +:+ "ing all users...") m in
      (m, Some (Func (bulkAction action items)))
  else
    if activePane m =? followingPane then
      let '(l, cmd) := list_Update (followingList m) (KeyMsg key) in
      (set_followingList l m, Batch [WidgetCmd <$> cmd])
    else
      let '(l, cmd) := list_Update (followersList m) (KeyMsg key) in
      (set_followersList l m, Batch [WidgetCmd <$> cmd]).

Definition Update (m : tuiModel) (msg : Msg) : tuiModel * option Cmd :=
  match msg with
  | WindowSizeMsg Width Height =>
      let m := set_size Width Height m in
      let listHeight := 15 in
      let listWidth := Width ÷ 2 in
      let m := set_followingList (SetHeight (followingList m) listHeight) m in
      let m := set_followersList (SetHeight (followersList m) listHeight) m in
      let m := set_followingList (SetWidth (followingList m) listWidth) m in
      let m := set_followersList (SetWidth (followersList m) listWidth) m in
      (m, None)
  | dataLoadedMsg username' onlyFollowing' onlyFollowers' err' =>
      let m := set_loading false m in
      match err' with
      | Some e => (set_err (Some e) m, None)
      | None =>
          let m := set_username username' m in
          let m := set_onlyFollowing onlyFollowing' m in
          let m := set_onlyFollowers onlyFollowers' m in
          let m := set_followingList (SetItems (followingList m) (onlyFollowing m)) m in
          let m := set_followersList (SetItems (followersList m) (onlyFollowers m)) m in
          (m, Batch [])
      end
  | errorMsg e =>
      let m := set_loading false m in
      let m := set_err e m in
      (m, None)
  | statusMsg s =>
      let m := set_isBulkActionInProgress false m in
      let m := set_statusMessage s m in
      if negb (String.eqb (statusMessage m) EmptyString)
      then (m, Some clearStatusMsg)
      else (m, None)
  | KeyMsg key =>
      if isBulkActionInProgress m then
        if isQuitKey key then (set_quitting true m, Some Quit) else (m, None)
      else if bool_decide (err m ≠ None) then
        if isQuitKey key then (set_quitting true m, Some Quit) else (m, None)
      else handleKey m key
  | otherMsg => (m, Batch [])
  end.

End reducer.

Arguments Cmd : clear implicits.
Arguments tuiModel : clear implicits.

(** *** A plain list widget

    A stand-in for [list.Model] with the items, a cursor and a size, on which
    the reducer can be run: [SelectedItem] is the item under the cursor, the
    [down] and [up] keys move the cursor, and no command is ever returned. *)
Record plainList : Type := {
  pl_items : list item;
  pl_cursor : nat;
  pl_width : Z;
  pl_height : Z
}.

Definition plainList_Update (l : plainList) (msg : Msg) : plainList * option Empty_set :=
  match msg with
  | KeyMsg key =>
      if String.eqb key "down" then
        ({| pl_items := pl_items l;
            pl_cursor := Nat.min (S (pl_cursor l)) (Nat.pred (length (pl_items l)));
            pl_width := pl_width l; pl_height := pl_height l |}, None)
      else if String.eqb key "up" then
        ({| pl_items := pl_items l; pl_cursor := Nat.pred (pl_cursor l);
            pl_width := pl_width l; pl_height := pl_height l |}, None)
      else (l, None)
  | _ => (l, None)
  end.

#[global] Instance plainList_widget : ListWidget plainList Empty_set := {|
  list_New i w h := {| pl_items := i; pl_cursor := 0; pl_width := w; pl_height := h |};
  Items := pl_items;
  SetItems l i := {| pl_items := i; pl_cursor := Nat.min (pl_cursor l) (Nat.pred (length i));
                     pl_width := pl_width l; pl_height := pl_height l |};
  SetHeight l h := {| pl_items := pl_items l; pl_cursor := pl_cursor l;
                      pl_width := pl_width l; pl_height := h |};
  SetWidth l w := {| pl_items := pl_items l; pl_cursor := pl_cursor l;
                     pl_width := w; pl_height := pl_height l |};
  SelectedItem l := pl_items l !! pl_cursor l;
  list_Update := plainList_Update;
  Items_list_New := λ _ _ _, eq_refl;
  Items_SetItems := λ _ _, eq_refl
|}.

End tui.

(** ** The helper of the client's tests *)

Module github_test.

(** [sort.Strings(s)]: [s] put in increasing order of Go strings. *)
Definition sort_Strings (s : list string) : list string :=
  tui.sort_Slice String.ltb s.

(** [for i := range s1 { if s1[i] != s2[i] { return false } }; return true],
    the indices [i] taken from the list [idx]. *)
Fixpoint sameAtIndices (idx : list nat) (s1 s2 : list string) : bool :=
  match idx with
  | [] => true
  | i :: rest =>
      if bool_decide (s1 !! i ≠ s2 !! i) then false else sameAtIndices rest s1 s2
  end.

(** [compareStringSlices] of client_test.go (and cli_test.go).  The two
    slices are sorted in place, so the caller sees them changed: the result is
    returned together with the two slices as they are after the call. *)
Definition compareStringSlices (s1 s2 : list string) : bool * list string * list string :=
  if bool_decide (length s1 ≠ length s2) then (false, s1, s2)
  else
    let s1 := sort_Strings s1 in
    let s2 := sort_Strings s2 in
    (sameAtIndices (seq 0 (length s1)) s1 s2, s1, s2).

End github_test.

(** ** What [Update] relies on the list widget to leave alone

    Of [list.Model]: resizing a list and handing it a message change neither
    what [Items] returns. *)
Class ListWidgetFrame (L WCmd : Type) `{!tui.ListWidget L WCmd} : Prop := {
  Items_SetHeight : ∀ (l : L) h, tui.Items (tui.SetHeight l h) = tui.Items l;
  Items_SetWidth : ∀ (l : L) w, tui.Items (tui.SetWidth l w) = tui.Items l;
  Items_list_Update : ∀ (l : L) msg, tui.Items (tui.list_Update l msg).1 = tui.Items l
}.

#[global] Instance plainList_frame : ListWidgetFrame tui.plainList Empty_set.
Proof.
  split; try done.
  intros l [| | | |key|]; try done. simpl.
  by destruct (String.eqb key "down"), (String.eqb key "up").
Qed.

(** The messages a command of the reducer may deliver when it completes:
    a load, an [errorMsg] that holds an error or a [dataLoadedMsg] that holds
    none; an action on the selected account, an [errorMsg] that holds an error
    or a status message. *)
Definition loadOutcome (msg : tui.Msg) : Prop :=
  match msg with
  | tui.errorMsg (Some _) => True
  | tui.dataLoadedMsg _ _ _ None => True
  | _ => False
  end.

Definition actionOutcome (msg : tui.Msg) : Prop :=
  match msg with
  | tui.errorMsg (Some _) => True
  | tui.statusMsg _ => True
  | _ => False
  end.

(** The byte [c] does not occur in [s]. *)
Fixpoint lacksByte (c : ascii) (s : string) : Prop :=
  match s with
  | EmptyString => True
  | String a s' => a ≠ c ∧ lacksByte c s'
  end.

(** ** Predicates of the statements, and fixtures of the tests *)

(** The test's [compareStringSlices] sorts before comparing; here two lists
    of names are compared as sets of the same size. *)
Definition sameNames (got expected : list string) : Prop :=
  list_to_set got =@{gset string} list_to_set expected ∧ length got = length expected.

(** *** What the expression of [GetUser] matches, stated on the text *)

Fixpoint allNotSpace (s : string) : Prop :=
  match s with
  | EmptyString => True
  | String c s' => github.isSpace c = false ∧ allNotSpace s'
  end.

(** A greedy run stops at the end of the text or before a space. *)
Definition stopsRun (rest : string) : Prop :=
  match rest with
  | EmptyString => True
  | String c _ => github.isSpace c = true
  end.

(** [r], followed by [tail], is one rune and not a newline. *)
Definition oneRune (r tail : string) : Prop :=
  match r with
  | EmptyString => False
  | String c _ =>
      c ≠ github.newline ∧
      github.DecodeRuneInString_size (r +:+ tail) = String.length r
  end.

(** [s] starts with a match of the expression: [whole] is the text matched,
    [name] the text captured by [(\S+)]. *)
Definition MatchesAt (s whole name : string) : Prop :=
  ∃ r rest,
    whole = github.lit1 +:+ r +:+ github.lit2 +:+ name ∧
    s = whole +:+ rest ∧
    oneRune r (github.lit2 +:+ name +:+ rest) ∧
    name ≠ EmptyString ∧ allNotSpace name ∧ stopsRun rest.

(** [output] holds a match after the prefix [pre]. *)
Definition Matches (output pre whole name : string) : Prop :=
  ∃ t, output = pre +:+ t ∧ MatchesAt t whole name.

(** The match after [pre] is the leftmost one. *)
Definition LeftmostMatch (output pre whole name : string) : Prop :=
  Matches output pre whole name ∧
  ∀ pre' whole' name',
    Matches output pre' whole' name' → (String.length pre ≤ String.length pre')%nat.

(** *** Sorted lists of items *)

(** Strictly ascending in the order of Go strings. *)
Definition ascending (l : list tui.item) : Prop :=
  Sorted (λ x y, String.ltb x y = true) l.

(** *** The models [Update] can reach from [NewModel] *)

Inductive Reachable {L WCmd : Type} `{!tui.ListWidget L WCmd} (ord : RangeOrder)
  : tui.tuiModel L → Prop :=
| Reachable_NewModel : Reachable ord tui.NewModel
| Reachable_Update m msg : Reachable ord m → Reachable ord (tui.Update ord m msg).1.

(** *** A mock client

    A client in the manner of [mockGitHubClient]: fixed answers, no state.
    [failAt] names the read that is to fail, if any. *)
Definition mockClient (failAt : option tui.Call) : tui.Client unit := {|
  tui.GetUser w :=
    if bool_decide (failAt = Some tui.GetUserCall)
    then ((EmptyString, Some (errorString "no session")), w)
    else (("me", None), w);
  tui.GetFollowing user w :=
    if bool_decide (failAt = Some (tui.GetFollowingCall user))
    then (([], Some (errorString "rate limited")), w)
    else ((["dave"; "alice"; "bob"; "charlie"; "alice"], None), w);
  tui.GetFollowers user w :=
    if bool_decide (failAt = Some (tui.GetFollowersCall user))
    then (([], Some (errorString "timeout")), w)
    else ((["frank"; "bob"; "eve"; "charlie"], None), w);
  tui.Unfollow user w := (None, w);
  tui.Follow user w := (None, w)
|}.

(** *** Concrete models, on the plain list widget *)

Definition model0 : tui.tuiModel tui.plainList := tui.NewModel.

Definition step (m : tui.tuiModel tui.plainList) (msg : tui.Msg)
    : tui.tuiModel tui.plainList * option (tui.Cmd Empty_set) :=
  tui.Update canonicalOrder m msg.

(** The model once the first load has delivered two accounts a pane. *)
Definition readyModel : tui.tuiModel tui.plainList :=
  (step model0 (tui.dataLoadedMsg "alice" ["x"; "y"] ["x"; "y"] None)).1.
(** ** The calculator: proofs *)

Section calculator.
Import github.
Implicit Types (l following followers : list string) (m other : gmap string bool).

Lemma toSet_aux_dom l m :
  dom (foldl (λ m u, <[u := true]> m) m l) = dom m ∪ list_to_set l.
Proof.
  revert m. induction l as [|u l IH]; intros m; simpl.
  - set_solver.
  - rewrite IH, dom_insert_L. set_solver.
Qed.

Lemma toSet_dom l : dom (toSet l) = list_to_set l.
Proof. unfold toSet. rewrite toSet_aux_dom, dom_empty_L. set_solver. Qed.

Lemma uniqueOnly_aux_dom other l m :
  dom (foldl (λ m u, match other !! u with
                     | Some _ => m
                     | None => <[u := true]> m
                     end) m l)
  = dom m ∪ (list_to_set l ∖ dom other).
Proof.
  revert m. induction l as [|u l IH]; intros m; simpl.
  - set_solver.
  - rewrite IH. destruct (other !! u) as [b|] eqn:Hu.
    + assert (u ∈ dom other) by (apply elem_of_dom; eauto). set_solver.
    + assert (u ∉ dom other) by (apply not_elem_of_dom; done).
      rewrite dom_insert_L. set_solver.
Qed.

Lemma uniqueOnly_dom other l :
  dom (uniqueOnly other l) = list_to_set l ∖ dom other.
Proof. unfold uniqueOnly. rewrite uniqueOnly_aux_dom, dom_empty_L. set_solver. Qed.

Lemma foldl_snoc (out l : list string) :
  foldl (λ out u, out ++ [u]) out l = out ++ l.
Proof.
  revert out. induction l as [|u l IH]; intros out; simpl.
  - by rewrite app_nil_r.
  - by rewrite IH, <- app_assoc.
Qed.

Lemma collectKeys_perm ord m : collectKeys ord m ≡ₚ map_keys m.
Proof. unfold collectKeys. rewrite foldl_snoc. simpl. apply range_keys_perm. Qed.

Lemma NoDup_map_keys m : NoDup (map_keys m).
Proof. apply NoDup_fst_map_to_list. Qed.

Lemma NoDup_collectKeys ord m : NoDup (collectKeys ord m).
Proof. rewrite collectKeys_perm. apply NoDup_map_keys. Qed.

Lemma list_to_set_map_keys m : list_to_set (map_keys m) = dom m.
Proof.
  apply set_eq. intros u. rewrite elem_of_list_to_set. unfold map_keys.
  rewrite elem_of_dom, list_elem_of_fmap. split.
  - intros [[k b] [-> Hkb]]. apply elem_of_map_to_list in Hkb. eauto.
  - intros [b Hb]. exists (u, b). split; [done|]. by apply elem_of_map_to_list.
Qed.

Lemma list_to_set_collectKeys ord m :
  list_to_set (collectKeys ord m) =@{gset string} dom m.
Proof.
  rewrite <- list_to_set_map_keys. apply set_eq. intros u.
  rewrite !elem_of_list_to_set. by rewrite collectKeys_perm.
Qed.

(** The two results, as sets, are the two differences. *)
Lemma onlyFollowing_set ord au following followers :
  list_to_set (GetMutualFollowsData ord au following followers).1
  =@{gset string} list_to_set following ∖ list_to_set followers.
Proof.
  unfold GetMutualFollowsData. simpl.
  by rewrite list_to_set_collectKeys, uniqueOnly_dom, toSet_dom.
Qed.

Lemma onlyFollowers_set ord au following followers :
  list_to_set (GetMutualFollowsData ord au following followers).2
  =@{gset string} list_to_set followers ∖ list_to_set following.
Proof.
  unfold GetMutualFollowsData. simpl.
  by rewrite list_to_set_collectKeys, uniqueOnly_dom, toSet_dom.
Qed.

Lemma gset_difference_inter (F G : gset string) : F ∖ G ∪ F ∩ G = F.
Proof.
  apply set_eq. intros u. rewrite elem_of_union, elem_of_difference, elem_of_intersection.
  destruct (decide (u ∈ G)); naive_solver.
Qed.

(** What the later proofs use of the calculator. *)
Lemma GetMutualFollowsData_asymmetric_parts ord au following followers :
  let r := GetMutualFollowsData ord au following followers in
  list_to_set r.1 =@{gset string} list_to_set following ∖ list_to_set followers ∧
  list_to_set r.2 =@{gset string} list_to_set followers ∖ list_to_set following ∧
  NoDup r.1 ∧ NoDup r.2.
Proof.
  split_and!; [apply onlyFollowing_set|apply onlyFollowers_set|apply NoDup_collectKeys..].
Qed.

Lemma NoDup_same_set_perm (l1 l2 : list string) :
  NoDup l1 → NoDup l2 → list_to_set l1 =@{gset string} list_to_set l2 → l1 ≡ₚ l2.
Proof.
  intros H1 H2 Heq. apply NoDup_Permutation; [done..|].
  intros u. rewrite <- !(elem_of_list_to_set (C:=gset string)). by rewrite Heq.
Qed.

Lemma GetMutualFollowsData_perm ord1 ord2 au following followers :
  (GetMutualFollowsData ord1 au following followers).1
  ≡ₚ (GetMutualFollowsData ord2 au following followers).1 ∧
  (GetMutualFollowsData ord1 au following followers).2
  ≡ₚ (GetMutualFollowsData ord2 au following followers).2.
Proof.
  split; (apply NoDup_same_set_perm; [apply NoDup_collectKeys..|]).
  - by rewrite !onlyFollowing_set.
  - by rewrite !onlyFollowers_set.
Qed.

(** C1: for all input sequences, the results of [GetMutualFollowsData],
    read as sets, are disjoint from the opposite input, rebuild each input
    when united with the mutual accounts, and are exactly
    set(following) − set(followers) and set(followers) − set(following);
    neither result repeats a name; the function is total, whatever order
    the map iterations take. *)
Theorem GetMutualFollowsData_asymmetric_sets
    (ord : RangeOrder) (authenticatedUser : string) (following followers : list string) :
  let r := GetMutualFollowsData ord authenticatedUser following followers in
  let F : gset string := list_to_set following in
  let G : gset string := list_to_set followers in
  let onlyFollowing : gset string := list_to_set r.1 in
  let onlyFollowers : gset string := list_to_set r.2 in
  onlyFollowing ∩ G = ∅ ∧
  onlyFollowers ∩ F = ∅ ∧
  onlyFollowing ∪ (F ∩ G) = F ∧
  onlyFollowers ∪ (F ∩ G) = G ∧
  onlyFollowing = F ∖ G ∧
  onlyFollowers = G ∖ F ∧
  NoDup r.1 ∧ NoDup r.2.
Proof.
  intros r F G onlyFollowing onlyFollowers.
  assert (HF : onlyFollowing = F ∖ G) by apply onlyFollowing_set.
  assert (HG : onlyFollowers = G ∖ F) by apply onlyFollowers_set.
  split_and!; try done.
  - rewrite HF. set_solver.
  - rewrite HG. set_solver.
  - rewrite HF. apply gset_difference_inter.
  - rewrite HG, (comm_L (∩) F G). apply gset_difference_inter.
  - apply NoDup_collectKeys.
  - apply NoDup_collectKeys.
Qed.

(** C7: the results depend only on the sets underlying the two inputs: not
    on the authenticated user, the order of the inputs, the multiplicity of
    their elements, or the iteration order of the maps. *)
Theorem GetMutualFollowsData_depends_on_sets_only
    (ord1 ord2 : RangeOrder) (user1 user2 : string)
    (following1 followers1 following2 followers2 : list string) :
  list_to_set following1 =@{gset string} list_to_set following2 →
  list_to_set followers1 =@{gset string} list_to_set followers2 →
  let r1 := GetMutualFollowsData ord1 user1 following1 followers1 in
  let r2 := GetMutualFollowsData ord2 user2 following2 followers2 in
  list_to_set r1.1 =@{gset string} list_to_set r2.1 ∧
  list_to_set r1.2 =@{gset string} list_to_set r2.2 ∧
  r1.1 ≡ₚ r2.1 ∧ r1.2 ≡ₚ r2.2.
Proof.
  intros HF HG r1 r2.
  assert (H1 : list_to_set r1.1 =@{gset string} list_to_set r2.1).
  { unfold r1, r2. rewrite !onlyFollowing_set. by rewrite HF, HG. }
  assert (H2 : list_to_set r1.2 =@{gset string} list_to_set r2.2).
  { unfold r1, r2. rewrite !onlyFollowers_set. by rewrite HF, HG. }
  split_and!; try done.
  - apply NoDup_same_set_perm; [apply NoDup_collectKeys..|done].
  - apply NoDup_same_set_perm; [apply NoDup_collectKeys..|done].
Qed.

End calculator.

(** ** The calculator on the inputs of [TestGetMutualFollowsData] *)

Section calculator_examples.
Import github.

Example GetMutualFollowsData_standard_case :
  let r := GetMutualFollowsData canonicalOrder "testuser"
             ["alice"; "bob"; "charlie"; "dave"] ["bob"; "charlie"; "eve"; "frank"] in
  sameNames r.1 ["alice"; "dave"] ∧ sameNames r.2 ["eve"; "frank"].
Proof. vm_compute. done. Qed.

Example GetMutualFollowsData_following_duplicates :
  let r := GetMutualFollowsData reversedOrder "testuser"
             ["alice"; "bob"; "alice"] ["bob"; "charlie"] in
  r = (["alice"], ["charlie"]).
Proof. vm_compute. done. Qed.

Example GetMutualFollowsData_followers_duplicates :
  let r := GetMutualFollowsData canonicalOrder "testuser"
             ["alice"; "bob"] ["bob"; "charlie"; "charlie"] in
  r = (["alice"], ["charlie"]).
Proof. vm_compute. done. Qed.

Example GetMutualFollowsData_all_mutual :
  GetMutualFollowsData canonicalOrder "testuser" ["alice"; "bob"] ["alice"; "bob"] = ([], []).
Proof. vm_compute. done. Qed.

End calculator_examples.

(** Witness of C7: two calls that differ in user, input order, duplicate
    multiplicity and map iteration order. *)
Lemma GetMutualFollowsData_depends_on_sets_only_witness :
  let r1 := github.GetMutualFollowsData canonicalOrder "me"
              ["alice"; "bob"; "alice"; "dave"] ["bob"; "charlie"] in
  let r2 := github.GetMutualFollowsData reversedOrder "you"
              ["dave"; "bob"; "alice"] ["charlie"; "bob"; "bob"; "charlie"] in
  list_to_set r1.1 =@{gset string} list_to_set r2.1 ∧
  list_to_set r1.2 =@{gset string} list_to_set r2.2 ∧
  r1.1 ≡ₚ r2.1 ∧ r1.2 ≡ₚ r2.2.
Proof.
  apply (GetMutualFollowsData_depends_on_sets_only canonicalOrder reversedOrder "me" "you"
           ["alice"; "bob"; "alice"; "dave"] ["bob"; "charlie"]
           ["dave"; "bob"; "alice"] ["charlie"; "bob"; "bob"; "charlie"]);
    vm_compute; reflexivity.
Defined.

(** ** [GetUser]: proofs *)

Section getuser_proofs.
Import github.
Implicit Types (s t p r name rest pre whole output : string).

(** *** Strings *)

Lemma string_app_nil_l s : EmptyString +:+ s = s.
Proof. done. Qed.

Lemma string_app_cons a s t : String a s +:+ t = String a (s +:+ t).
Proof. done. Qed.

Lemma string_app_assoc s t u : (s +:+ t) +:+ u = s +:+ t +:+ u.
Proof. induction s as [|a s IH]; [done|]. by rewrite !string_app_cons, IH. Qed.

Lemma string_app_length s t :
  String.length (s +:+ t) = (String.length s + String.length t)%nat.
Proof. induction s as [|a s IH]; [done|]. rewrite string_app_cons. simpl. by rewrite IH. Qed.

Lemma matchLiteral_spec p s t : matchLiteral p s = Some t ↔ s = p +:+ t.
Proof.
  revert s. induction p as [|a p IH]; intros s; simpl.
  - split; [by intros [= ->]|by intros ->].
  - destruct s as [|b s]; [done|]. rewrite string_app_cons.
    destruct (Ascii.eqb_spec a b) as [->|Hne].
    + rewrite IH. split; [by intros ->|by intros [= ->]].
    + split; [done|]. by intros [= -> _].
Qed.

Lemma splitAt_app n s : s = (splitAt n s).1 +:+ (splitAt n s).2.
Proof.
  revert s. induction n as [|n IH]; intros [|c s]; simpl; try done.
  specialize (IH s). destruct (splitAt n s) as [a b]. simpl in *.
  by rewrite string_app_cons, <- IH.
Qed.

Lemma splitAt_length n s :
  (n ≤ String.length s)%nat → String.length (splitAt n s).1 = n.
Proof.
  revert s. induction n as [|n IH]; intros [|c s]; simpl; try done; try lia.
  intros Hn. specialize (IH s). destruct (splitAt n s) as [a b]. simpl in *.
  rewrite IH; lia.
Qed.

Lemma splitAt_length_app r t : splitAt (String.length r) (r +:+ t) = (r, t).
Proof.
  induction r as [|c r IH].
  - by destruct t.
  - rewrite string_app_cons. simpl. by rewrite IH.
Qed.

(** *** The pieces of the expression *)

Lemma DecodeRuneInString_size_bounds s :
  s ≠ EmptyString →
  (1 ≤ DecodeRuneInString_size s ≤ String.length s)%nat.
Proof.
  destruct s as [|s0 t]; [done|]. intros _. unfold DecodeRuneInString_size.
  destruct (utf8First s0) as [[[sz lo] hi]|]; [|simpl; lia].
  destruct (String.length (String s0 t) <? sz)%nat; [simpl; lia|].
  destruct t as [|s1 t1]; [simpl; lia|].
  destruct (negb (between lo hi s1)); [simpl; lia|].
  destruct (sz <=? 2)%nat; [simpl; lia|].
  destruct t1 as [|s2 t2]; [simpl; lia|].
  destruct (negb (between 128 191 s2)); [simpl; lia|].
  destruct (sz <=? 3)%nat; [simpl; lia|].
  destruct t2 as [|s3 t3]; [simpl; lia|].
  destruct (negb (between 128 191 s3)); simpl; lia.
Qed.

Lemma matchDot_spec s r t : matchDot s = Some (r, t) ↔ s = r +:+ t ∧ oneRune r t.
Proof.
  split.
  - destruct s as [|c s']; [done|]. unfold matchDot.
    destruct (Ascii.eqb_spec c newline) as [|Hc]; [done|].
    pose proof (DecodeRuneInString_size_bounds (String c s')) as [Hlo Hhi]; [done|].
    remember (DecodeRuneInString_size (String c s')) as n eqn:Hn.
    pose proof (splitAt_app n (String c s')) as Happ.
    pose proof (splitAt_length n (String c s') Hhi) as Hlen.
    destruct (splitAt n (String c s')) as [r0 t0]. intros [= -> ->].
    simpl in Happ, Hlen. split; [done|].
    destruct r as [|c' r']; [simpl in Hlen; lia|].
    rewrite string_app_cons in Happ. injection Happ as <- Hs'.
    unfold oneRune. split; [done|].
    rewrite string_app_cons, <- Hs', <- Hn. done.
  - intros [-> Hr]. destruct r as [|c r']; [done|]. destruct Hr as [Hc Hsize].
    rewrite string_app_cons in *. unfold matchDot.
    destruct (Ascii.eqb_spec c newline) as [|_]; [done|].
    rewrite Hsize, <- string_app_cons. by rewrite splitAt_length_app.
Qed.

Lemma takeNotSpace_spec s name :
  takeNotSpace s = name ↔ ∃ rest, s = name +:+ rest ∧ allNotSpace name ∧ stopsRun rest.
Proof.
  revert name. induction s as [|c s IH]; intros name; simpl.
  - split.
    + intros <-. by exists EmptyString.
    + intros (rest & Hs & _). by destruct name.
  - destruct (isSpace c) eqn:Hc.
    + split.
      * intros <-. by exists (String c s).
      * intros (rest & Hs & Hname & _). destruct name as [|c' name']; [done|].
        rewrite string_app_cons in Hs. injection Hs as <- _.
        destruct Hname as [Hc' _]. congruence.
    + split.
      * intros <-. destruct (proj1 (IH (takeNotSpace s)) eq_refl) as (rest & Hs & Hn & Hr).
        exists rest. rewrite string_app_cons, <- Hs. done.
      * intros (rest & Hs & Hname & Hrest). destruct name as [|c' name'].
        { rewrite string_app_nil_l in Hs. subst rest. simpl in Hrest. congruence. }
        rewrite string_app_cons in Hs. injection Hs as <- Hs.
        f_equal. apply IH. exists rest. by destruct Hname.
Qed.

Lemma matchHere_spec s whole name :
  matchHere s = Some (whole, name) ↔ MatchesAt s whole name.
Proof.
  unfold matchHere, MatchesAt. split.
  - destruct (matchLiteral lit1 s) as [s1|] eqn:H1; [|done].
    destruct (matchDot s1) as [[r s2]|] eqn:H2; [|done].
    destruct (matchLiteral lit2 s2) as [s3|] eqn:H3; [|done].
    cbv zeta. destruct (takeNotSpace s3) as [|c n] eqn:H4; [done|].
    intros [= <- <-].
    apply matchLiteral_spec in H1, H3. apply matchDot_spec in H2 as [H2 Hr].
    apply takeNotSpace_spec in H4 as (rest & H4 & Hn & Hrest).
    exists r, rest. subst. by rewrite !string_app_assoc.
  - intros (r & rest & -> & -> & Hr & Hne & Hn & Hrest).
    rewrite !string_app_assoc.
    rewrite (proj2 (matchLiteral_spec lit1 _ _) eq_refl).
    rewrite (proj2 (matchDot_spec _ r (lit2 +:+ name +:+ rest))) by done.
    rewrite (proj2 (matchLiteral_spec lit2 _ _) eq_refl).
    cbv zeta. rewrite (proj2 (takeNotSpace_spec (name +:+ rest) name)) by eauto.
    by destruct name.
Qed.

Lemma MatchesAt_unique s whole name whole' name' :
  MatchesAt s whole name → MatchesAt s whole' name' → whole = whole' ∧ name = name'.
Proof.
  intros H1%matchHere_spec H2%matchHere_spec. rewrite H1 in H2. by injection H2.
Qed.

(** *** The search *)

Lemma FindStringSubmatch_cases s :
  (FindStringSubmatch s = [] ∧ ∀ pre whole name, ¬ Matches s pre whole name) ∨
  (∃ pre whole name,
     FindStringSubmatch s = [whole; name] ∧ LeftmostMatch s pre whole name).
Proof.
  induction s as [|a s IH].
  - simpl. destruct (matchHere EmptyString) as [[whole name]|] eqn:Hm.
    + right. exists EmptyString, whole, name. split; [done|]. split.
      * exists EmptyString. split; [done|]. by apply matchHere_spec.
      * intros; simpl; lia.
    + left. split; [done|]. intros pre whole name (t & Hs & Ht).
      destruct pre; [|done]. rewrite string_app_nil_l in Hs. subst t.
      apply matchHere_spec in Ht. congruence.
  - simpl. destruct (matchHere (String a s)) as [[whole name]|] eqn:Hm.
    + right. exists EmptyString, whole, name. split; [done|]. split.
      * exists (String a s). split; [done|]. by apply matchHere_spec.
      * intros; simpl; lia.
    + destruct IH as [[Hnil Hnone]|(pre & whole & name & Hfind & Hmatch & Hleft)].
      * left. split; [done|]. intros [|b pre] whole name (t & Hs & Ht).
        { rewrite string_app_nil_l in Hs. subst t. apply matchHere_spec in Ht. congruence. }
        rewrite string_app_cons in Hs. injection Hs as <- Hs.
        apply (Hnone pre whole name). by exists t.
      * right. exists (String a pre), whole, name. split; [done|]. split.
        { destruct Hmatch as (t & -> & Ht). by exists t. }
        intros [|b pre'] whole' name' (t & Hs & Ht).
        { rewrite string_app_nil_l in Hs. subst t. apply matchHere_spec in Ht. congruence. }
        rewrite string_app_cons in Hs. injection Hs as <- Hs.
        assert (String.length pre ≤ String.length pre')%nat; [|simpl; lia].
        apply (Hleft pre' whole' name'). by exists t.
Qed.

(** C10: [GetUser] never returns an empty user name together with a nil
    error.  It returns an error exactly when the command fails or its output
    holds no match of the expression, and the user name is then empty; on
    success the user name is what the leftmost match captured: a non-empty
    run of bytes without white space. *)
Theorem GetUser_no_empty_username_without_error
    (run : string → list string → string * option error) :
  let output := (run "gh" ["auth"; "status"]).1 in
  let runErr := (run "gh" ["auth"; "status"]).2 in
  let user := (GetUser run).1 in
  let err := (GetUser run).2 in
  ¬ (user = EmptyString ∧ err = None) ∧
  (err ≠ None ↔ runErr ≠ None ∨ ¬ ∃ pre whole name, Matches output pre whole name) ∧
  (err ≠ None → user = EmptyString) ∧
  (err = None →
     ∃ pre whole, LeftmostMatch output pre whole user ∧
                  user ≠ EmptyString ∧ allNotSpace user).
Proof.
  unfold GetUser. destruct (run "gh" ["auth"; "status"]) as [output [e|]]; simpl.
  { split_and!; try done.
    - by intros [_ ?].
    - split; [by left|done]. }
  destruct (FindStringSubmatch_cases output)
    as [[-> Hnone]|(pre & whole & name & -> & Hleft)]; simpl.
  - split_and!; try done.
    + by intros [_ ?].
    + split; [|done]. intros _. right. intros (pre & whole & name & Hm).
      by apply (Hnone pre whole name).
  - assert (Hname : name ≠ EmptyString ∧ allNotSpace name).
    { destruct Hleft as [(t & _ & r & rest & _ & _ & _ & Hne & Hn & _) _]. done. }
    split_and!; try done.
    + by intros [-> _]; destruct Hname.
    + split; [done|]. intros [?|Hno]; [done|]. exfalso. apply Hno.
      exists pre, whole, name. apply Hleft.
    + intros _. exists pre, whole. by destruct Hname.
Qed.

End getuser_proofs.

(** [TestGetUser] *)
Example GetUser_success :
  github.GetUser (λ _ _,
    ("github.com" +:+ String github.newline
       "  ✓ Logged in to github.com account testuser (keyring)", None))
  = ("testuser", None).
Proof. by vm_compute. Qed.

Example GetUser_command_error :
  github.GetUser (λ _ _, (EmptyString, Some (errorString "command failed")))
  = (EmptyString,
     Some (wrapError "failed to run 'gh auth status': command failed"
             (errorString "command failed"))).
Proof. by vm_compute. Qed.

Example GetUser_unexpected_output :
  github.GetUser (λ _ _, ("some unexpected output", None))
  = (EmptyString,
     Some (errorString "could not find authenticated user in 'gh auth status' output")).
Proof. by vm_compute. Qed.

(** The [.] of the expression is one rune, of one byte or more. *)
Example GetUser_dot_is_a_rune :
  github.GetUser (λ _ _, ("Logged in to github✓com account bob", None)) = ("bob", None).
Proof. by vm_compute. Qed.

(** ** The order of Go strings and [sort.Slice]: proofs *)

Section string_order.
Import tui.
Implicit Types (x y z : string).

Lemma ascii_compare_refl (a : ascii) : Ascii.compare a a = Eq.
Proof. apply N.compare_refl. Qed.

Lemma ascii_compare_lt_trans (a b c : ascii) :
  Ascii.compare a b = Lt → Ascii.compare b c = Lt → Ascii.compare a c = Lt.
Proof. unfold Ascii.compare. rewrite !N.compare_lt_iff. apply N.lt_trans. Qed.

Lemma string_compare_lt_trans x y z :
  String.compare x y = Lt → String.compare y z = Lt → String.compare x z = Lt.
Proof.
  revert y z. induction x as [|a x IH]; intros [|b y] [|c z]; simpl; try done.
  destruct (Ascii.compare a b) eqn:Hab; try done;
    destruct (Ascii.compare b c) eqn:Hbc; try done.
  - apply Ascii.compare_eq_iff in Hab, Hbc. subst.
    rewrite ascii_compare_refl. apply IH.
  - apply Ascii.compare_eq_iff in Hab. subst. by rewrite Hbc.
  - apply Ascii.compare_eq_iff in Hbc. subst. by rewrite Hab.
  - by rewrite (ascii_compare_lt_trans a b c).
Qed.

Lemma string_compare_refl x : String.compare x x = Eq.
Proof. induction x as [|a x IH]; simpl; [done|]. by rewrite ascii_compare_refl. Qed.

(** [x] is not after [y] exactly when [x < y] or [x = y]. *)
Lemma notAfter_spec x y :
  notAfter lessByFilterValue x y ↔ String.ltb x y = true ∨ x = y.
Proof.
  unfold notAfter, lessByFilterValue, FilterValue, String.ltb.
  rewrite (String.compare_antisym x y).
  destruct (String.compare y x) eqn:Hyx; simpl.
  - apply String.compare_eq_iff in Hyx. naive_solver.
  - split; [done|]. intros [?| ->]; [done|].
    by rewrite string_compare_refl in Hyx.
  - naive_solver.
Qed.

#[local] Instance notAfter_total : Total (notAfter lessByFilterValue).
Proof.
  intros x y. unfold notAfter, lessByFilterValue, FilterValue, String.ltb.
  rewrite (String.compare_antisym x y).
  destruct (String.compare y x); simpl; auto.
Qed.

#[local] Instance notAfter_trans : Transitive (notAfter lessByFilterValue).
Proof.
  intros x y z. rewrite !notAfter_spec. unfold String.ltb.
  intros [Hxy| ->] [Hyz| ->]; auto. left.
  destruct (String.compare x y) eqn:Hc1; try done.
  destruct (String.compare y z) eqn:Hc2; try done.
  by rewrite (string_compare_lt_trans x y z).
Qed.

#[local] Instance notAfter_antisym : AntiSymm (=) (notAfter lessByFilterValue).
Proof.
  intros x y. rewrite !notAfter_spec. unfold String.ltb.
  intros [Hxy| ->] [Hyx| Heq]; auto.
  rewrite (String.compare_antisym y x) in Hyx.
  by destruct (String.compare x y).
Qed.

Lemma Sorted_notAfter_NoDup_ascending (l : list item) :
  Sorted (notAfter lessByFilterValue) l → NoDup l → ascending l.
Proof.
  induction 1 as [|x l Hl IH Hhd]; intros Hnd; [constructor|].
  apply NoDup_cons in Hnd as [Hx Hnd].
  constructor; [by apply IH|].
  destruct Hhd as [|y l Hxy]; constructor.
  apply notAfter_spec in Hxy as [?| ->]; [done|].
  exfalso. apply Hx. by left.
Qed.

Lemma sort_Slice_perm (l : list item) : sort_Slice lessByFilterValue l ≡ₚ l.
Proof. apply merge_sort_Permutation. Qed.

Lemma sort_Slice_sorted (l : list item) :
  Sorted (notAfter lessByFilterValue) (sort_Slice lessByFilterValue l).
Proof. apply (Sorted_merge_sort (notAfter lessByFilterValue)). Qed.

(** Whatever [sort.Slice] does inside, its result is this list: a sorted
    permutation of [l] is unique. *)
Lemma sort_Slice_unique (l l' : list item) :
  l' ≡ₚ l → Sorted (notAfter lessByFilterValue) l' → l' = sort_Slice lessByFilterValue l.
Proof.
  intros Hp Hs. apply (Sorted_unique (notAfter lessByFilterValue)); [done|..].
  - apply sort_Slice_sorted.
  - by rewrite sort_Slice_perm.
Qed.

Lemma sort_Slice_ascending (l : list item) :
  NoDup l → ascending (sort_Slice lessByFilterValue l).
Proof.
  intros Hnd. apply Sorted_notAfter_NoDup_ascending; [apply sort_Slice_sorted|].
  by rewrite sort_Slice_perm.
Qed.

Lemma list_to_set_sort_Slice (l : list item) :
  list_to_set (sort_Slice lessByFilterValue l) =@{gset string} list_to_set l.
Proof.
  apply set_eq. intros u. rewrite !elem_of_list_to_set. by rewrite sort_Slice_perm.
Qed.

End string_order.

(** ** [loadDataCmd]: proofs *)

Section load_proofs.
Import tui.
Context {W : Type} (c : Client W).

Lemma Unwrap_Errorf_w (prefix : string) (e : error) : Unwrap (Errorf_w prefix e) = Some e.
Proof. done. Qed.

(** C6: [loadDataCmd] calls [GetUser], then [GetFollowing], then
    [GetFollowers], the last two for the user the first returned.  At the
    first call that returns an error it stops: no later call is made and the
    message is an [errorMsg] that wraps that error.  When the three succeed
    the message is a [dataLoadedMsg] without error for that user whose two
    lists are the results of [GetMutualFollowsData] sorted: strictly
    ascending in the order of Go strings, hence without duplicates, and as
    sets the two differences of the fetched lists. *)
Theorem loadDataCmd_sequence (ord : RangeOrder) (w : W) :
  let res := run c (loadData ord) w in
  match GetUser c w with
  | ((_, Some e), w1) =>
      res = (errorMsg (Some (Errorf_w "failed to get user: " e)), w1, [GetUserCall])
  | ((username, None), w1) =>
    match GetFollowing c username w1 with
    | ((_, Some e), w2) =>
        res = (errorMsg (Some (Errorf_w "failed to get following: " e)), w2,
               [GetUserCall; GetFollowingCall username])
    | ((following, None), w2) =>
      match GetFollowers c username w2 with
      | ((_, Some e), w3) =>
          res = (errorMsg (Some (Errorf_w "failed to get followers: " e)), w3,
                 [GetUserCall; GetFollowingCall username; GetFollowersCall username])
      | ((followers, None), w3) =>
          let calc := github.GetMutualFollowsData ord username following followers in
          ∃ onlyFollowing onlyFollowers : list item,
            res = (dataLoadedMsg username onlyFollowing onlyFollowers None, w3,
                   [GetUserCall; GetFollowingCall username; GetFollowersCall username]) ∧
            onlyFollowing ≡ₚ calc.1 ∧ onlyFollowers ≡ₚ calc.2 ∧
            ascending onlyFollowing ∧ ascending onlyFollowers ∧
            NoDup onlyFollowing ∧ NoDup onlyFollowers ∧
            list_to_set onlyFollowing
            =@{gset string} list_to_set following ∖ list_to_set followers ∧
            list_to_set onlyFollowers
            =@{gset string} list_to_set followers ∖ list_to_set following
      end
    end
  end.
Proof.
  intros res. unfold res, loadData. simpl.
  destruct (GetUser c w) as [[username [e|]] w1]; simpl; [done|].
  destruct (GetFollowing c username w1) as [[following [e|]] w2]; simpl; [done|].
  destruct (GetFollowers c username w2) as [[followers [e|]] w3]; simpl; [done|].
  pose proof (GetMutualFollowsData_asymmetric_parts ord username following followers)
    as (HF & HG & HndF & HndG).
  eexists _, _. split; [reflexivity|].
  split_and!.
  - apply sort_Slice_perm.
  - apply sort_Slice_perm.
  - by apply sort_Slice_ascending.
  - by apply sort_Slice_ascending.
  - by rewrite sort_Slice_perm.
  - by rewrite sort_Slice_perm.
  - by rewrite list_to_set_sort_Slice.
  - by rewrite list_to_set_sort_Slice.
Qed.

(** X15: the outcome of a load does not depend on the order in which Go
    ranges over the maps of [GetMutualFollowsData]: for every client and
    every two iteration orders, the load returns the same message, leaves the
    client in the same state and makes the same calls; sorting erases the
    order. *)
Lemma loadData_order_irrelevant (ord1 ord2 : RangeOrder) (w : W) :
  run c (loadData ord1) w = run c (loadData ord2) w.
Proof.
  unfold loadData. simpl.
  destruct (GetUser c w) as [[username [e|]] w1]; simpl; [done|].
  destruct (GetFollowing c username w1) as [[following [e|]] w2]; simpl; [done|].
  destruct (GetFollowers c username w2) as [[followers [e|]] w3]; simpl; [done|].
  pose proof (GetMutualFollowsData_perm ord1 ord2 username following followers)
    as [H1 H2].
  do 3 f_equal.
  - apply sort_Slice_unique; [|apply sort_Slice_sorted].
    by rewrite sort_Slice_perm.
  - apply sort_Slice_unique; [|apply sort_Slice_sorted].
    by rewrite sort_Slice_perm.
Qed.

End load_proofs.

(** ** [loadDataCmd] against mock clients *)

Section load_examples.
Import tui.

Example loadData_success :
  run (mockClient None) (loadData reversedOrder) ()
  = (dataLoadedMsg "me" ["alice"; "dave"] ["eve"; "frank"] None, (),
     [GetUserCall; GetFollowingCall "me"; GetFollowersCall "me"]).
Proof. by vm_compute. Qed.

Example loadData_user_fails :
  run (mockClient (Some GetUserCall)) (loadData canonicalOrder) ()
  = (errorMsg (Some (wrapError "failed to get user: no session"
                       (errorString "no session"))), (),
     [GetUserCall]).
Proof. by vm_compute. Qed.

Example loadData_following_fails :
  run (mockClient (Some (GetFollowingCall "me"))) (loadData canonicalOrder) ()
  = (errorMsg (Some (wrapError "failed to get following: rate limited"
                       (errorString "rate limited"))), (),
     [GetUserCall; GetFollowingCall "me"]).
Proof. by vm_compute. Qed.

Example loadData_followers_fails :
  run (mockClient (Some (GetFollowersCall "me"))) (loadData canonicalOrder) ()
  = (errorMsg (Some (wrapError "failed to get followers: timeout"
                       (errorString "timeout"))), (),
     [GetUserCall; GetFollowingCall "me"; GetFollowersCall "me"]).
Proof. by vm_compute. Qed.

End load_examples.

(** ** The reducer: proofs *)

Section reducer_proofs.
Import tui.
Context {L WCmd : Type} `{!ListWidget L WCmd}.
Variable ord : RangeOrder.
Implicit Types (m : tuiModel L) (key s : string) (e : error).

(** While a bulk action is in progress a key is either a quit request or
    dropped; the stored error and the loading flag play no part. *)
Lemma Update_key_busy m key :
  isBulkActionInProgress m = true →
  Update ord m (KeyMsg key)
  = if isQuitKey key then (set_quitting true m, Some Quit) else (m, None).
Proof. intros Hbusy. unfold Update. by rewrite Hbusy. Qed.

(** With an error stored a key is either a quit request or dropped. *)
Lemma Update_key_err m key e :
  err m = Some e →
  Update ord m (KeyMsg key)
  = if isQuitKey key then (set_quitting true m, Some Quit) else (m, None).
Proof.
  intros He. unfold Update. rewrite He.
  destruct (isBulkActionInProgress m); [done|].
  by rewrite bool_decide_eq_true_2.
Qed.

(** With no bulk action and no error every key reaches the inner switch,
    loading or not. *)
Lemma Update_key_free m key :
  isBulkActionInProgress m = false → err m = None →
  Update ord m (KeyMsg key) = handleKey ord m key.
Proof.
  intros Hbusy He. unfold Update. rewrite Hbusy, He.
  by rewrite bool_decide_eq_false_2 by (intros Hne; by apply Hne).
Qed.

(** No message but [r] and [enter], both behind the test of [err], sets
    [loading]; every message that stores an error clears it. *)
Lemma handleKey_loading_err m key :
  err m = None → loading (handleKey ord m key).1 = true → err (handleKey ord m key).1 = None.
Proof.
  intros He. unfold handleKey.
  repeat (match goal with
          | |- context [if ?b then _ else _] => destruct b
          | |- context [match ?x with Some _ => _ | None => _ end] => destruct x
          | |- context [let '(_, _) := ?p in _] => destruct p
          end; simpl; try done).
Qed.

Lemma Reachable_loading_err m : Reachable ord m → loading m = true → err m = None.
Proof.
  induction 1 as [|m msg Hm IH]; [done|].
  destruct msg as [w h|u f g [e|]|e|s|key|]; simpl; try done.
  - by destruct (negb _).
  - destruct (isBulkActionInProgress m) eqn:Hbusy.
    { destruct (isQuitKey key); simpl; done. }
    destruct (err m) as [e|] eqn:He.
    { rewrite bool_decide_eq_true_2 by done.
      destruct (isQuitKey key); simpl; intros Hl; by specialize (IH Hl). }
    rewrite bool_decide_eq_false_2 by (intros Hne; by apply Hne).
    by apply handleKey_loading_err.
Qed.

(** What a successful [dataLoadedMsg] does to any model: it assigns the user
    name, the two slices, the two lists and [loading], and nothing else. *)
Lemma Update_dataLoaded_fields m (user : string) (items1 items2 : list item) :
  let r := Update ord m (dataLoadedMsg user items1 items2 None) in
  username r.1 = user ∧
  onlyFollowing r.1 = items1 ∧ onlyFollowers r.1 = items2 ∧
  Items (followingList r.1) = items1 ∧ Items (followersList r.1) = items2 ∧
  loading r.1 = false ∧
  err r.1 = err m ∧
  r.2 = None.
Proof. simpl. rewrite !Items_SetItems. by split_and!. Qed.

(** C2: in every loading state, that is in every model [Update] can reach
    from [NewModel] whose [loading] flag is set, a successful [dataLoadedMsg]
    stores the user name and both item lists of the message, hands the same
    lists to the two panes in the given order, and leaves [loading] false and
    [err] nil; it schedules nothing. *)
Theorem Update_dataLoaded_populates m (user : string) (items1 items2 : list item) :
  Reachable ord m →
  loading m = true →
  let r := Update ord m (dataLoadedMsg user items1 items2 None) in
  username r.1 = user ∧
  onlyFollowing r.1 = items1 ∧ onlyFollowers r.1 = items2 ∧
  Items (followingList r.1) = items1 ∧ Items (followersList r.1) = items2 ∧
  loading r.1 = false ∧
  err r.1 = None ∧
  r.2 = None.
Proof.
  intros Hm Hl r.
  destruct (Update_dataLoaded_fields m user items1 items2)
    as (Hu & Hf & Hg & Hfl & Hgl & Hload & Herr & Hcmd).
  fold r in Hu, Hf, Hg, Hfl, Hgl, Hload, Herr, Hcmd.
  split_and!; try done.
  rewrite Herr. by apply Reachable_loading_err.
Qed.

(** C3 (as amended): while a bulk action is in progress, every key other
    than a quit request leaves the model as it is and schedules nothing,
    with or without a stored error and whatever [loading] is.  The loading
    flag by itself holds no key back. *)
Theorem Update_key_inert_while_busy m key :
  isBulkActionInProgress m = true →
  isQuitKey key = false →
  Update ord m (KeyMsg key) = (m, None).
Proof. intros Hbusy Hkey. by rewrite Update_key_busy, Hkey. Qed.

(** C4 (as amended): the expiry that [clearStatusMsg] schedules delivers the
    empty status message after three seconds, and [Update] then empties the
    status text whatever text is held; nothing else of the model changes but
    the bulk flag, which is reset, and no command is scheduled. *)
Theorem Update_status_expiry_clears_any_status m :
  clearStatusMsg = Tick (WCmd:=WCmd) 3000000000 (statusMsg "") ∧
  Update ord m (statusMsg "")
  = (set_statusMessage "" (set_isBulkActionInProgress false m), None) ∧
  statusMessage (Update ord m (statusMsg "")).1 = "".
Proof. done. Qed.

(** C5 (as amended): an [errorMsg] with cause [e] clears [loading] and
    stores [e]; from that state every key other than a quit request leaves
    the model as it is and schedules nothing. *)
Theorem Update_errorMsg_halts_keys m e key :
  isQuitKey key = false →
  let m1 := (Update ord m (errorMsg (Some e))).1 in
  loading m1 = false ∧ err m1 = Some e ∧
  (Update ord m (errorMsg (Some e))).2 = None ∧
  Update ord m1 (KeyMsg key) = (m1, None).
Proof.
  intros Hkey m1. split_and!; try done.
  by rewrite (Update_key_err m1 key e), Hkey.
Qed.

(** C8: while a bulk action is in progress, a pane-switch key leaves the
    active pane, and the whole model, as it is and schedules nothing; so does
    every key other than a quit request, and a quit request sets [quitting]
    and returns [tea.Quit]. *)
Theorem Update_pane_switch_ignored_while_busy m key :
  isBulkActionInProgress m = true →
  (key = "tab" ∨ key = "shift+tab" →
     activePane (Update ord m (KeyMsg key)).1 = activePane m ∧
     Update ord m (KeyMsg key) = (m, None)) ∧
  (isQuitKey key = false → Update ord m (KeyMsg key) = (m, None)) ∧
  (isQuitKey key = true →
     Update ord m (KeyMsg key) = (set_quitting true m, Some Quit)).
Proof.
  intros Hbusy. rewrite Update_key_busy by done. split_and!.
  - intros [-> | ->]; split; reflexivity.
  - by intros ->.
  - by intros ->.
Qed.

(** C9: every status message resets the bulk flag, the empty one of the
    expiry timer included; the text of the message becomes the status text,
    and a new expiry is scheduled unless the text is empty.  The next key is
    then handled as if no bulk action were under way. *)
Theorem Update_statusMsg_resets_bulk_flag m s key :
  let r := Update ord m (statusMsg s) in
  isBulkActionInProgress r.1 = false ∧
  statusMessage r.1 = s ∧
  r.2 = (if String.eqb s "" then None else Some clearStatusMsg) ∧
  clearStatusMsg = Tick (WCmd:=WCmd) (3 * Second) (statusMsg "") ∧
  isBulkActionInProgress (Update ord m (statusMsg "")).1 = false ∧
  Update ord r.1 (KeyMsg key)
  = if bool_decide (err m ≠ None)
    then (if isQuitKey key then (set_quitting true r.1, Some Quit) else (r.1, None))
    else handleKey ord r.1 key.
Proof.
  simpl. destruct (String.eqb s "") eqn:Hs; simpl; split_and!; try done.
Qed.

End reducer_proofs.

(** ** The reducer on concrete models

    The scenarios of tui_test.go and the inputs that separate the code from
    the specification, run on the plain list widget. *)

Section reducer_examples.
Import tui.

(** [TestNewModel] *)
Example NewModel_initial :
  loading model0 = true ∧ activePane model0 = followingPane ∧
  Items (followingList model0) = [] ∧ Items (followersList model0) = [].
Proof. done. Qed.

(** [TestUpdate_TabKey]: the fresh model is loading, and the pane toggles. *)
Example Update_tab_twice :
  activePane (step model0 (KeyMsg "tab")).1 = followersPane ∧
  activePane (step (step model0 (KeyMsg "tab")).1 (KeyMsg "tab")).1 = followingPane.
Proof. done. Qed.

(** [TestUpdate_DataLoaded] *)
Example Update_dataLoaded_test :
  loading readyModel = false ∧ err readyModel = None ∧ username readyModel = "alice" ∧
  Items (followingList readyModel) = ["x"; "y"] ∧
  Items (followersList readyModel) = ["x"; "y"].
Proof. done. Qed.

(** [TestUpdate_Error] *)
Example Update_error_test :
  let m := (step model0 (errorMsg (Some (errorString "this is a test error")))).1 in
  loading m = false ∧ err m = Some (errorString "this is a test error").
Proof. done. Qed.

(** The loading states [Update] produces hold no error. *)
Example Reachable_loading_state :
  Reachable canonicalOrder model0 ∧ loading model0 = true ∧ err model0 = None.
Proof. split; [constructor|done]. Qed.

End reducer_examples.

(** Witness of C2: the fresh model, which is loading, receives the first
    load. *)
Lemma Update_dataLoaded_populates_witness :
  let r := step model0 (tui.dataLoadedMsg "alice" ["x"; "y"] ["x"; "y"] None) in
  tui.username r.1 = "alice" ∧
  tui.onlyFollowing r.1 = ["x"; "y"] ∧ tui.onlyFollowers r.1 = ["x"; "y"] ∧
  tui.Items (tui.followingList r.1) = ["x"; "y"] ∧
  tui.Items (tui.followersList r.1) = ["x"; "y"] ∧
  tui.loading r.1 = false ∧
  tui.err r.1 = None ∧
  r.2 = None.
Proof.
  apply (Update_dataLoaded_populates (L:=tui.plainList) canonicalOrder
           model0 "alice" ["x"; "y"] ["x"; "y"]).
  - apply Reachable_NewModel.
  - reflexivity.
Defined.

(** Counterexample to C3 as stated: with a load outstanding and no error
    stored, keys other than a quit request are acted upon.  On the fresh
    model [tab] moves the focus and [r] schedules a second load; once a load
    started by [enter] is outstanding, a second [enter] schedules the action
    and a load again and [a] starts a bulk action. *)
Lemma Update_keys_handled_while_loading :
  let m1 := (step readyModel (tui.KeyMsg "enter")).1 in
  tui.loading model0 = true ∧ tui.isBulkActionInProgress model0 = false ∧
  tui.err model0 = None ∧
  tui.isQuitKey "tab" = false ∧
  tui.activePane model0 = tui.followingPane ∧
  tui.activePane (step model0 (tui.KeyMsg "tab")).1 = tui.followersPane ∧
  (step model0 (tui.KeyMsg "r")).2 = Some (tui.loadDataCmd canonicalOrder) ∧
  tui.loading m1 = true ∧ tui.isBulkActionInProgress m1 = false ∧ tui.err m1 = None ∧
  (step m1 (tui.KeyMsg "enter")).2
  = Some (tui.BatchCmd [tui.Func (tui.unfollowSelected "x");
                         tui.loadDataCmd canonicalOrder]) ∧
  tui.isBulkActionInProgress (step m1 (tui.KeyMsg "a")).1 = true ∧
  (step m1 (tui.KeyMsg "a")).2
  = Some (tui.Func (tui.bulkAction "unfollow" ["x"; "y"])).
Proof. split_and!; reflexivity. Qed.

(** Witness of C3 (as amended): a second bulk request during a bulk action. *)
Lemma Update_key_inert_while_busy_witness :
  let m := (step readyModel (tui.KeyMsg "a")).1 in
  tui.isBulkActionInProgress m = true ∧ tui.isQuitKey "a" = false ∧
  step m (tui.KeyMsg "a") = (m, None).
Proof.
  split; [reflexivity|]. split; [reflexivity|].
  apply (Update_key_inert_while_busy (L:=tui.plainList) canonicalOrder
           (step readyModel (tui.KeyMsg "a")).1 "a"); reflexivity.
Defined.

(** Counterexample to C4 as stated: the expiry scheduled for an earlier
    status text clears a later one.  A first status message schedules an
    expiry; a second, different message replaces the text; the first expiry
    then fires and empties the text although it is not the one the expiry was
    scheduled for. *)
Lemma Update_expiry_clears_newer_status :
  let s1 := step readyModel (tui.statusMsg "Unfollowed x!") in
  let s2 := step s1.1 (tui.statusMsg "Bulk unfollow complete!") in
  let s3 := step s2.1 (tui.statusMsg "") in
  s1.2 = Some (tui.Tick 3000000000 (tui.statusMsg "")) ∧
  tui.statusMessage s1.1 = "Unfollowed x!" ∧
  tui.statusMessage s2.1 = "Bulk unfollow complete!" ∧
  tui.statusMessage s2.1 ≠ tui.statusMessage s1.1 ∧
  tui.statusMessage s3.1 = "" ∧
  tui.statusMessage s3.1 ≠ tui.statusMessage s2.1.
Proof. split_and!; try reflexivity; discriminate. Qed.

(** Counterexample to C5 as stated: after a failed load, events that are
    not keys still change the model: a late [dataLoadedMsg] stores the user
    and the lists, a status message sets the status text, a resize sets the
    size. *)
Lemma Update_events_after_error_change_model :
  let m1 := (step model0 (tui.errorMsg (Some (errorString "boom")))).1 in
  tui.loading m1 = false ∧ tui.err m1 = Some (errorString "boom") ∧
  tui.username m1 = "" ∧
  tui.username (step m1 (tui.dataLoadedMsg "alice" ["x"] ["y"] None)).1 = "alice" ∧
  tui.Items (tui.followingList (step m1 (tui.dataLoadedMsg "alice" ["x"] ["y"] None)).1)
  = ["x"] ∧
  (step m1 (tui.dataLoadedMsg "alice" ["x"] ["y"] None)).1 ≠ m1 ∧
  tui.statusMessage m1 = "" ∧
  tui.statusMessage (step m1 (tui.statusMsg "Unfollowed x!")).1 = "Unfollowed x!" ∧
  tui.width m1 = 0 ∧
  tui.width (step m1 (tui.WindowSizeMsg 80 24)).1 = 80.
Proof.
  split_and!; try reflexivity.
  intros Heq. apply (f_equal tui.username) in Heq. discriminate Heq.
Qed.

(** Witness of C5 (as amended): the fresh model, a failed load, then [tab]. *)
Lemma Update_errorMsg_halts_keys_witness :
  let m1 := (step model0 (tui.errorMsg (Some (errorString "boom")))).1 in
  tui.isQuitKey "tab" = false ∧
  tui.loading m1 = false ∧ tui.err m1 = Some (errorString "boom") ∧
  (step model0 (tui.errorMsg (Some (errorString "boom")))).2 = None ∧
  step m1 (tui.KeyMsg "tab") = (m1, None).
Proof.
  split; [reflexivity|].
  apply (Update_errorMsg_halts_keys (L:=tui.plainList) canonicalOrder
           model0 (errorString "boom") "tab"); reflexivity.
Defined.

(** Witness of C8: [tab] during a bulk action started from the ready model. *)
Lemma Update_pane_switch_ignored_while_busy_witness :
  let m := (step readyModel (tui.KeyMsg "a")).1 in
  tui.isBulkActionInProgress m = true ∧
  tui.activePane (step m (tui.KeyMsg "tab")).1 = tui.activePane m ∧
  step m (tui.KeyMsg "tab") = (m, None).
Proof.
  split; [reflexivity|].
  apply (Update_pane_switch_ignored_while_busy (L:=tui.plainList) canonicalOrder
           (step readyModel (tui.KeyMsg "a")).1 "tab"); [reflexivity|by left].
Defined.

(** The scenario of C9: a status message of a single action schedules an
    expiry; a bulk action starts before it fires; the expiry resets the bulk
    flag while the bulk action is still running, and [tab] is handled again. *)
Example Update_expiry_resets_busy_during_bulk :
  let s1 := step readyModel (tui.statusMsg "Unfollowed x!") in
  let s2 := step s1.1 (tui.KeyMsg "a") in
  let s3 := step s2.1 (tui.statusMsg "") in
  s1.2 = Some tui.clearStatusMsg ∧
  tui.isBulkActionInProgress s2.1 = true ∧
  step s2.1 (tui.KeyMsg "tab") = (s2.1, None) ∧
  tui.isBulkActionInProgress s3.1 = false ∧
  tui.activePane (step s3.1 (tui.KeyMsg "tab")).1 = tui.followersPane.
Proof. split_and!; reflexivity. Qed.

(** ** Further properties of the calculator and of the test helper *)

Section calculator_more.
Import github github_test.
Implicit Types (following followers : list string).

Lemma sameAtIndices_true (idx : list nat) (s1 s2 : list string) :
  sameAtIndices idx s1 s2 = true ↔ ∀ i, i ∈ idx → s1 !! i = s2 !! i.
Proof.
  induction idx as [|i idx IH]; simpl.
  - split; [|done]. intros _ i Hi. by apply elem_of_nil in Hi.
  - destruct (decide (s1 !! i = s2 !! i)) as [Heq|Hne].
    + rewrite bool_decide_eq_false_2 by (intros Hne; by apply Hne).
      rewrite IH. split.
      * intros Hall j [->|Hj]%elem_of_cons; auto.
      * intros Hall j Hj. apply Hall. by right.
    + rewrite (bool_decide_eq_true_2 _ Hne). split; [done|].
      intros Hall. destruct Hne. apply Hall. by left.
Qed.

Lemma sort_Strings_perm (s : list string) : sort_Strings s ≡ₚ s.
Proof. apply sort_Slice_perm. Qed.

Lemma compareStringSlices_true (s1 s2 : list string) :
  (compareStringSlices s1 s2).1.1 = true ↔ s1 ≡ₚ s2.
Proof.
  unfold compareStringSlices.
  destruct (decide (length s1 = length s2)) as [Hlen|Hlen].
  - rewrite bool_decide_eq_false_2 by (intros Hne; by apply Hne). simpl.
    rewrite sameAtIndices_true. split.
    + intros Hall. rewrite <- (sort_Strings_perm s1), <- (sort_Strings_perm s2).
      assert (sort_Strings s1 = sort_Strings s2) as ->; [|done].
      apply list_eq. intros i.
      destruct (decide (i < length (sort_Strings s1))%nat) as [Hi|Hi].
      * apply Hall. apply elem_of_seq. lia.
      * rewrite !lookup_ge_None_2; [done|..];
          rewrite ?(sort_Strings_perm s2), <- ?Hlen, <- ?(sort_Strings_perm s1); lia.
    + intros Hperm i _. f_equal. apply sort_Slice_unique; [|apply sort_Slice_sorted].
      by rewrite sort_Strings_perm, Hperm.
  - rewrite bool_decide_eq_true_2 by done. simpl. split; [done|].
    intros Hperm. by apply Permutation_length in Hperm.
Qed.


(** X2: no name is in both results of [GetMutualFollowsData]; every name
    of a result comes from the corresponding input, and a result is never
    longer than that input. *)
Theorem GetMutualFollowsData_results_disjoint
    (ord : RangeOrder) (authenticatedUser : string) following followers :
  let r := GetMutualFollowsData ord authenticatedUser following followers in
  (∀ u, u ∈ r.1 → u ∉ r.2) ∧
  (∀ u, u ∈ r.1 → u ∈ following) ∧
  (∀ u, u ∈ r.2 → u ∈ followers) ∧
  (length r.1 ≤ length following)%nat ∧
  (length r.2 ≤ length followers)%nat.
Proof.
  intros r.
  pose proof (GetMutualFollowsData_asymmetric_parts ord authenticatedUser following followers)
    as (HF & HG & HndF & HndG). fold r in HF, HG, HndF, HndG.
  assert (H1 : ∀ u, u ∈ r.1 ↔ u ∈ following ∧ u ∉ followers).
  { intros u. rewrite <- !(elem_of_list_to_set (C:=gset string)), HF. set_solver. }
  assert (H2 : ∀ u, u ∈ r.2 ↔ u ∈ followers ∧ u ∉ following).
  { intros u. rewrite <- !(elem_of_list_to_set (C:=gset string)), HG. set_solver. }
  split_and!.
  - intros u Hu Hu'. apply H1 in Hu. apply H2 in Hu'. tauto.
  - intros u Hu. by apply H1 in Hu as [? ?].
  - intros u Hu. by apply H2 in Hu as [? ?].
  - apply submseteq_length, NoDup_submseteq; [done|]. intros u Hu. by apply H1 in Hu as [? ?].
  - apply submseteq_length, NoDup_submseteq; [done|]. intros u Hu. by apply H2 in Hu as [? ?].
Qed.

(** X3: [onlyFollowing] is empty exactly when every account followed
    follows back, and [onlyFollowers] exactly when every follower is
    followed; so inputs that are both empty, or that hold the same names,
    give two empty results. *)
Theorem GetMutualFollowsData_empty_iff
    (ord : RangeOrder) (authenticatedUser : string) following followers :
  let r := GetMutualFollowsData ord authenticatedUser following followers in
  (r.1 = [] ↔ ∀ u, u ∈ following → u ∈ followers) ∧
  (r.2 = [] ↔ ∀ u, u ∈ followers → u ∈ following).
Proof.
  intros r.
  pose proof (GetMutualFollowsData_asymmetric_parts ord authenticatedUser following followers)
    as (HF & HG & _ & _). fold r in HF, HG.
  assert (Hnil : ∀ l : list string, l = [] ↔ ∀ u, u ∉ l).
  { intros l. split; [intros -> u; apply not_elem_of_nil|].
    destruct l as [|x l]; [done|]. intros Hl. destruct (Hl x). by left. }
  split.
  - rewrite Hnil. split.
    + intros Hno u Hu. destruct (decide (u ∈ followers)) as [|Hn]; [done|].
      destruct (Hno u). rewrite <- (elem_of_list_to_set (C:=gset string)), HF. set_solver.
    + intros Hsub u. rewrite <- (elem_of_list_to_set (C:=gset string)), HF.
      specialize (Hsub u). set_solver.
  - rewrite Hnil. split.
    + intros Hno u Hu. destruct (decide (u ∈ following)) as [|Hn]; [done|].
      destruct (Hno u). rewrite <- (elem_of_list_to_set (C:=gset string)), HG. set_solver.
    + intros Hsub u. rewrite <- (elem_of_list_to_set (C:=gset string)), HG.
      specialize (Hsub u). set_solver.
Qed.

(** X16: what the tests of [GetMutualFollowsData] check.  Comparing a
    result with an expected slice through [compareStringSlices] succeeds
    exactly when the expected slice repeats no name and holds, as a set, the
    difference of the two inputs: a result with a duplicate or a missing or
    spare name fails the comparison. *)
Theorem compareStringSlices_checks_the_difference
    (ord : RangeOrder) (authenticatedUser : string) following followers
    (expectedOnlyFollowing expectedOnlyFollowers : list string) :
  let r := GetMutualFollowsData ord authenticatedUser following followers in
  ((compareStringSlices r.1 expectedOnlyFollowing).1.1 = true ↔
     NoDup expectedOnlyFollowing ∧
     list_to_set expectedOnlyFollowing
     =@{gset string} list_to_set following ∖ list_to_set followers) ∧
  ((compareStringSlices r.2 expectedOnlyFollowers).1.1 = true ↔
     NoDup expectedOnlyFollowers ∧
     list_to_set expectedOnlyFollowers
     =@{gset string} list_to_set followers ∖ list_to_set following).
Proof.
  intros r.
  pose proof (GetMutualFollowsData_asymmetric_parts ord authenticatedUser following followers)
    as (HF & HG & HndF & HndG). fold r in HF, HG, HndF, HndG.
  assert (Hgen : ∀ (got expected : list string) (D : gset string),
            NoDup got → list_to_set got = D →
            (got ≡ₚ expected ↔ NoDup expected ∧ list_to_set expected = D)).
  { intros got expected D Hnd Hset. split.
    - intros Hp. split; [by rewrite <- Hp|]. rewrite <- Hset.
      apply set_eq. intros u. rewrite !elem_of_list_to_set. by rewrite Hp.
    - intros [Hnd' Hset']. apply NoDup_same_set_perm; [done..|]. by rewrite Hset, Hset'. }
  split; rewrite compareStringSlices_true; by apply Hgen.
Qed.

End calculator_more.

(** ** Further properties of [GetUser] *)

Section getuser_more.
Import github.

Lemma matchHere_other_byte (c : ascii) (s : string) :
  c ≠ "L"%char → matchHere (String c s) = None.
Proof.
  intros Hc. unfold matchHere.
  destruct (matchLiteral lit1 (String c s)) as [t|] eqn:Hlit; [|done].
  apply matchLiteral_spec in Hlit.
  change lit1 with (String "L" "ogged in to github") in Hlit.
  rewrite string_app_cons in Hlit. by injection Hlit as -> _.
Qed.

Lemma FindStringSubmatch_here (s whole name : string) :
  matchHere s = Some (whole, name) → FindStringSubmatch s = [whole; name].
Proof. intros Hm. destruct s; cbn [FindStringSubmatch]; by rewrite Hm. Qed.

(** X4: [GetUser] reads back the account name of a status line.  When the
    output of the command is any text without the letter L, then
    [Logged in to github.com account ], then a name that is not empty and
    holds no white space, then nothing or text that starts with white space,
    the result is that name and no error. *)
Theorem GetUser_recovers_account_name (pre name rest : string) :
  lacksByte "L" pre →
  name ≠ EmptyString → allNotSpace name → stopsRun rest →
  GetUser (λ _ _,
    (pre +:+ "Logged in to github.com account " +:+ name +:+ rest, None))
  = (name, None).
Proof.
  intros Hpre Hne Hname Hrest. unfold GetUser.
  assert (Hfind : ∃ whole,
    FindStringSubmatch (pre +:+ "Logged in to github.com account " +:+ name +:+ rest)
    = [whole; name]) .
  { induction pre as [|c pre IH].
    - exists (lit1 +:+ "." +:+ lit2 +:+ name). rewrite string_app_nil_l.
      apply FindStringSubmatch_here, matchHere_spec.
      exists ".", rest. split_and!; try done; by rewrite !string_app_assoc.
    - destruct Hpre as [Hc Hpre]. destruct (IH Hpre) as [whole Hw].
      exists whole. rewrite string_app_cons. cbn [FindStringSubmatch].
      by rewrite matchHere_other_byte. }
  destruct Hfind as [whole ->]. done.
Qed.

End getuser_more.

(** Witness of X4: the output of the client's test. *)
Lemma GetUser_recovers_account_name_witness :
  github.GetUser (λ _ _,
    (("github.com" +:+ String github.newline "  ✓ ")
       +:+ "Logged in to github.com account " +:+ "testuser" +:+ " (keyring)", None))
  = ("testuser", None).
Proof.
  apply (GetUser_recovers_account_name
           ("github.com" +:+ String github.newline "  ✓ ") "testuser" " (keyring)").
  - vm_compute. repeat split; discriminate.
  - discriminate.
  - vm_compute. repeat split.
  - reflexivity.
Defined.

(** ** Further properties of the reducer and of its commands *)

Section reducer_more.
Import tui.
Context {L WCmd : Type} `{!ListWidget L WCmd}.
Variable ord : RangeOrder.
Implicit Types (m : tuiModel L) (key s : string) (e : error) (msg : Msg).

(** Splits the goal along the tests [Update] and [handleKey] make. *)
Ltac update_cases :=
  repeat (match goal with
          | |- context [if ?b then _ else _] => destruct b eqn:?
          | |- context [match ?x with Some _ => _ | None => _ end] => destruct x eqn:?
          | |- context [let '(_, _) := ?p in _] => destruct p eqn:?
          end; simpl in *).

Definition bulkStatus (m : tuiModel L) : Prop :=
  statusMessage m = "Bulk unfollowing all users..." ∨
  statusMessage m = "Bulk following all users...".

Lemma handleKey_activePane m key :
  activePane (handleKey ord m key).1 = activePane m ∨
  activePane (handleKey ord m key).1 = followingPane ∨
  activePane (handleKey ord m key).1 = followersPane.
Proof. unfold handleKey. update_cases; auto. Qed.

Lemma handleKey_bulkStatus m key :
  isBulkActionInProgress (handleKey ord m key).1 = true →
  isBulkActionInProgress m = true ∧ statusMessage (handleKey ord m key).1 = statusMessage m
  ∨ bulkStatus (handleKey ord m key).1.
Proof.
  unfold handleKey, bulkStatus. update_cases; auto;
    match goal with
    | H : (_, _) = (_, _) |- _ => injection H as <- <-
    end; intros _; right; auto.
Qed.

(** X5: three facts hold of every model [Update] can reach from
    [NewModel], whatever messages arrive in whatever order: a model that is
    loading holds no error; the active pane is one of the two panes; and while
    the bulk flag is set the status text is the one the bulk action wrote. *)
Theorem Update_reachable_invariants m :
  Reachable ord m →
  (loading m = true → err m = None) ∧
  (activePane m = followingPane ∨ activePane m = followersPane) ∧
  (isBulkActionInProgress m = true →
     statusMessage m = "Bulk unfollowing all users..." ∨
     statusMessage m = "Bulk following all users...").
Proof.
  fold (bulkStatus m). induction 1 as [|m msg Hm (IH1 & IH2 & IH3)]; [by split_and!; auto|].
  split_and!.
  - destruct msg as [w h|u f g [e|]|e|s|key|]; simpl; try done.
    + by destruct (negb _).
    + destruct (isBulkActionInProgress m); [by destruct (isQuitKey key)|].
      destruct (err m) as [e|] eqn:He.
      { rewrite bool_decide_eq_true_2 by done.
        destruct (isQuitKey key); simpl; intros Hl; by specialize (IH1 Hl). }
      rewrite bool_decide_eq_false_2 by (intros Hne; by apply Hne).
      by apply handleKey_loading_err.
  - destruct msg as [w h|u f g [e|]|e|s|key|]; simpl; try done.
    + by destruct (negb _).
    + destruct (isBulkActionInProgress m); [by destruct (isQuitKey key)|].
      destruct (bool_decide _); [by destruct (isQuitKey key)|].
      destruct (handleKey_activePane m key) as [->|[->| ->]]; auto.
  - destruct msg as [w h|u f g [e|]|e|s|key|]; simpl; try done.
    + by destruct (negb _).
    + destruct (isBulkActionInProgress m) eqn:Hb; [by destruct (isQuitKey key); auto|].
      destruct (bool_decide _); [destruct (isQuitKey key); simpl; congruence|].
      intros Hb'. destruct (handleKey_bulkStatus m key Hb') as [[? _]|?]; [congruence|done].
Qed.

(** X6: a quit request is obeyed in every state: whatever the model holds
    (a load or a bulk action outstanding, an error stored), [q] and [ctrl+c]
    set [quitting], change nothing else and return [tea.Quit]. *)
Theorem Update_quit_from_any_state m key :
  isQuitKey key = true →
  Update ord m (KeyMsg key) = (set_quitting true m, Some Quit).
Proof.
  intros Hq. unfold Update, handleKey. rewrite Hq.
  change (keyIs key "q" || keyIs key "ctrl+c") with (isQuitKey key). rewrite Hq.
  by destruct (isBulkActionInProgress m), (bool_decide (err m ≠ None)).
Qed.

(** X7: no message clears [quitting]: once it is set it stays set. *)
Theorem Update_never_clears_quitting m msg :
  quitting m = true → quitting (Update ord m msg).1 = true.
Proof.
  intros Hq. destruct msg as [w h|u f g [e|]|e|s|key|]; simpl; try done.
  - by destruct (negb _).
  - unfold handleKey. update_cases; try done;
      match goal with
      | H : (_, _) = (_, _) |- _ => by injection H as <- <-
      end.
Qed.

(** X8: no key clears a stored error, the refresh key included, and no
    message does but one that brings an error value of its own: after any
    other message the model holds the very error it held. *)
Theorem Update_keeps_stored_error m msg e :
  err m = Some e →
  err (Update ord m msg).1 =
    match msg with
    | errorMsg e' => e'
    | dataLoadedMsg _ _ _ (Some e') => Some e'
    | _ => Some e
    end.
Proof.
  intros He. destruct msg as [w h|u f g [e'|]|e'|s|key|]; simpl; try done.
  - by destruct (negb _).
  - rewrite He. rewrite bool_decide_eq_true_2 by done.
    by destruct (isBulkActionInProgress m), (isQuitKey key).
Qed.

(** X9: with no bulk action under way and no error stored, two pane-switch
    keys in a row leave the model exactly as it was, provided the active pane
    is one of the two panes (as it is in every reachable model); one such key
    moves the focus to the other pane. *)
Theorem Update_pane_switch_twice m key1 key2 :
  isBulkActionInProgress m = false → err m = None →
  activePane m = followingPane ∨ activePane m = followersPane →
  key1 = "tab" ∨ key1 = "shift+tab" →
  key2 = "tab" ∨ key2 = "shift+tab" →
  activePane (Update ord m (KeyMsg key1)).1 ≠ activePane m ∧
  Update ord (Update ord m (KeyMsg key1)).1 (KeyMsg key2) = (m, None).
Proof.
  intros Hb He Hp Hk1 Hk2.
  assert (H1 : Update ord m (KeyMsg key1)
               = (set_activePane (if activePane m =? followingPane
                                  then followersPane else followingPane) m, None)).
  { rewrite Update_key_free by done. destruct Hk1 as [-> | ->]; unfold handleKey; simpl;
      by destruct (activePane m =? followingPane). }
  rewrite H1. cbn [fst]. split.
  { simpl. destruct Hp as [-> | ->]; done. }
  rewrite Update_key_free by done.
  destruct m as [u f g p fl gl l er q st b w h]. simpl in *. subst.
  destruct Hp as [-> | ->], Hk2 as [-> | ->]; reflexivity.
Qed.

End reducer_more.

Section commands_more.
Import tui.
Context {L WCmd : Type} `{!ListWidget L WCmd}.
Context {W : Type} (c : Client W).
Variable ord : RangeOrder.
Implicit Types (m : tuiModel L) (w : W) (items : list item).

(** The call a bulk action makes for one item, and what it does to the
    client. *)
Definition bulkCall (action : string) : item → Call :=
  if String.eqb action "unfollow" then UnfollowCall else FollowCall.

Definition bulkEffect (action : string) (w : W) (user : item) : W :=
  if String.eqb action "unfollow" then (Unfollow c user w).2 else (Follow c user w).2.

Lemma run_bulkLoop (action : string) items (done : Prog Msg) w :
  run c (bulkLoop action items done) w
  = let '(a, w', t) := run c done (foldl (bulkEffect action) w items) in
    (a, w', map (bulkCall action) items ++ t).
Proof.
  unfold bulkEffect, bulkCall.
  destruct (String.eqb action "unfollow") eqn:Ha;
    revert w; induction items as [|user items IH]; intros w; simpl;
    try (by destruct (run c done w) as [[a w'] t]); rewrite Ha; simpl.
  - destruct (Unfollow c user w) as [r w1]. simpl. rewrite IH.
    by destruct (run c done _) as [[a w'] t].
  - destruct (Follow c user w) as [r w1]. simpl. rewrite IH.
    by destruct (run c done _) as [[a w'] t].
Qed.

(** X10: act on the selected account.  With no bulk action under way and no
    error stored, [enter] does nothing when the active pane has no selected
    item.  Otherwise it sets [loading], changes nothing else, and schedules two
    commands, the action and a reload; the action makes exactly one call to
    the client, [Unfollow] of the selected account on the Following pane and
    [Follow] of it on the Followers pane, and delivers an [errorMsg] that
    wraps the client's error when the call fails and a status message that
    names the account when it succeeds. *)
Theorem Update_enter_acts_on_selected m w :
  isBulkActionInProgress m = false → err m = None →
  let onFollowing := activePane m =? followingPane in
  let selected := if onFollowing then SelectedItem (followingList m)
                  else SelectedItem (followersList m) in
  match selected with
  | None => Update ord m (KeyMsg "enter") = (m, None)
  | Some sel =>
      ∃ action : Prog Msg,
        Update ord m (KeyMsg "enter")
        = (set_loading true m, Some (BatchCmd [Func action; loadDataCmd ord])) ∧
        run c action w =
          if onFollowing then
            (match (Unfollow c sel w).1 with
             | Some e =>
                 errorMsg (Some (Errorf_w ("failed to unfollow " +:+ sel +:+ ": ") e))
             | None => statusMsg ("Unfollowed " +:+ sel +:+ "!")
             end, (Unfollow c sel w).2, [UnfollowCall sel])
          else
            (match (Follow c sel w).1 with
             | Some e =>
                 errorMsg (Some (Errorf_w ("failed to follow " +:+ sel +:+ ": ") e))
             | None => statusMsg ("Followed " +:+ sel +:+ "!")
             end, (Follow c sel w).2, [FollowCall sel])
  end.
Proof.
  intros Hb He onFollowing selected. rewrite Update_key_free by done.
  unfold selected, onFollowing, handleKey. simpl.
  destruct (activePane m =? followingPane).
  - destruct (SelectedItem (followingList m)) as [sel|]; [|done].
    eexists. split; [reflexivity|]. simpl.
    by destruct (Unfollow c sel w) as [[e|] w1].
  - destruct (SelectedItem (followersList m)) as [sel|]; [|done].
    eexists. split; [reflexivity|]. simpl.
    by destruct (Follow c sel w) as [[e|] w1].
Qed.

(** X11: act on every account.  With no bulk action under way and no error
    stored, [a] does nothing when the active pane lists no item.  Otherwise it
    sets the bulk flag and the status text, changes nothing else, and
    schedules one command that calls the client once for every item of the
    pane, in the order of the list: [Unfollow] on the Following pane, [Follow]
    on the Followers pane.  Whatever the calls return, errors included, the
    command goes through the whole list and delivers the completion message. *)
Theorem Update_bulk_acts_on_every_item m w :
  isBulkActionInProgress m = false → err m = None →
  let onFollowing := activePane m =? followingPane in
  let items := if onFollowing then Items (followingList m) else Items (followersList m) in
  let action := if onFollowing then "unfollow" else "follow" in
  match items with
  | [] => Update ord m (KeyMsg "a") = (m, None)
  | _ :: _ =>
      ∃ bulk : Prog Msg,
        Update ord m (KeyMsg "a")
        = (set_statusMessage ("Bulk " +:+ action +:+ "ing all users...")
             (set_isBulkActionInProgress true m), Some (Func bulk)) ∧
        run c bulk w
        = (statusMsg ("Bulk " +:+ action +:+ " complete!"),
           foldl (λ w user, if onFollowing then (Unfollow c user w).2
                            else (Follow c user w).2) w items,
           map (if onFollowing then UnfollowCall else FollowCall) items)
  end.
Proof.
  intros Hb He onFollowing items action. rewrite Update_key_free by done.
  unfold items, action, onFollowing, handleKey. simpl.
  destruct (activePane m =? followingPane).
  - destruct (Items (followingList m)) as [|user rest] eqn:Hitems; [done|].
    eexists. split; [reflexivity|].
    unfold bulkAction. rewrite run_bulkLoop. simpl. by rewrite app_nil_r.
  - destruct (Items (followersList m)) as [|user rest] eqn:Hitems; [done|].
    eexists. split; [reflexivity|].
    unfold bulkAction. rewrite run_bulkLoop. simpl. by rewrite app_nil_r.
Qed.

(** X12: what each command of the reducer delivers when it completes,
    for every client.  The load delivers an [errorMsg] that holds an error or
    a [dataLoadedMsg] that holds none, and nothing else; an action on the
    selected account delivers an [errorMsg] that holds an error or a status
    message, and nothing else; a bulk action delivers the status message of
    its completion and the expiry the empty status message.  So no command
    delivers an [errorMsg] without an error or a [dataLoadedMsg] with one. *)
Theorem commands_deliver_completion_messages
    w (selectedItem : item) (action : string) items :
  loadOutcome (run c (loadData ord) w).1.1 ∧
  actionOutcome (run c (unfollowSelected selectedItem) w).1.1 ∧
  actionOutcome (run c (followSelected selectedItem) w).1.1 ∧
  (run c (bulkAction action items) w).1.1
  = statusMsg ("Bulk " +:+ action +:+ " complete!") ∧
  clearStatusMsg (WCmd:=WCmd) = Tick (3 * Second) (statusMsg "").
Proof.
  split_and!; try done.
  - unfold loadData. simpl.
    destruct (GetUser c w) as [[username [e|]] w1]; simpl; [done|].
    destruct (GetFollowing c username w1) as [[following [e|]] w2]; simpl; [done|].
    by destruct (GetFollowers c username w2) as [[followers [e|]] w3].
  - simpl. by destruct (Unfollow c selectedItem w) as [[e|] w1].
  - simpl. by destruct (Follow c selectedItem w) as [[e|] w1].
  - unfold bulkAction. rewrite run_bulkLoop. done.
Qed.

(** X13: the first load, end to end.  Whatever the client answers, once
    the message of the load that [Init] schedules has been handed to [Update]
    the fresh model is no longer loading, and either it holds an error that
    wraps the client's, with both panes still empty, or it holds none and
    the two panes list accounts in strictly increasing order of name, as the
    model's own two slices do, with no account in both panes. *)
Theorem Update_after_first_load w :
  Init (WCmd:=WCmd) ord (NewModel (L:=L)) = Some (loadDataCmd ord) ∧
  let m1 : tuiModel L := (Update ord NewModel (run c (loadData ord) w).1.1).1 in
  loading m1 = false ∧
  match err m1 with
  | Some e =>
      (∃ prefix cause, e = Errorf_w prefix cause) ∧
      Items (followingList m1) = [] ∧ Items (followersList m1) = []
  | None =>
      Items (followingList m1) = onlyFollowing m1 ∧
      Items (followersList m1) = onlyFollowers m1 ∧
      ascending (onlyFollowing m1) ∧ ascending (onlyFollowers m1) ∧
      ∀ u, u ∈ onlyFollowing m1 → u ∉ onlyFollowers m1
  end.
Proof.
  split; [done|]. unfold loadData. simpl.
  destruct (GetUser c w) as [[username [e|]] w1]; simpl.
  { rewrite !Items_list_New. eauto 10. }
  destruct (GetFollowing c username w1) as [[following [e|]] w2]; simpl.
  { rewrite !Items_list_New. eauto 10. }
  destruct (GetFollowers c username w2) as [[followers [e|]] w3]; simpl.
  { rewrite !Items_list_New. eauto 10. }
  pose proof (GetMutualFollowsData_asymmetric_parts ord username following followers)
    as (HF & HG & HndF & HndG).
  assert (H1 : ∀ u, u ∈ sort_Slice lessByFilterValue
                      (github.GetMutualFollowsData ord username following followers).1
                    ↔ u ∈ following ∧ u ∉ followers).
  { intros u. rewrite sort_Slice_perm.
    rewrite <- !(elem_of_list_to_set (C:=gset string) (A:=string)), HF. set_solver. }
  assert (H2 : ∀ u, u ∈ sort_Slice lessByFilterValue
                      (github.GetMutualFollowsData ord username following followers).2
                    ↔ u ∈ followers ∧ u ∉ following).
  { intros u. rewrite sort_Slice_perm.
    rewrite <- !(elem_of_list_to_set (C:=gset string) (A:=string)), HG. set_solver. }
  rewrite !Items_SetItems. split_and!; try done.
  - by apply sort_Slice_ascending.
  - by apply sort_Slice_ascending.
  - intros u Hu Hu'. apply (H1 u) in Hu. apply (H2 u) in Hu'. tauto.
Qed.

End commands_more.

Section widget_more.
Import tui.
Context {L WCmd : Type} `{!ListWidget L WCmd} `{!ListWidgetFrame L WCmd}.
Variable ord : RangeOrder.

Lemma handleKey_items (m : tuiModel L) key :
  Items (followingList (handleKey ord m key).1) = Items (followingList m) ∧
  Items (followersList (handleKey ord m key).1) = Items (followersList m) ∧
  onlyFollowing (handleKey ord m key).1 = onlyFollowing m ∧
  onlyFollowers (handleKey ord m key).1 = onlyFollowers m.
Proof.
  unfold handleKey.
  repeat (match goal with
          | |- context [if ?b then _ else _] => destruct b eqn:?
          | |- context [match ?x with Some _ => _ | None => _ end] => destruct x eqn:?
          end; simpl; try done).
  - destruct (list_Update (followingList m) (KeyMsg key)) as [l cmd] eqn:Hl. simpl.
    by rewrite <- (Items_list_Update (followingList m) (KeyMsg key)), Hl.
  - destruct (list_Update (followersList m) (KeyMsg key)) as [l cmd] eqn:Hl. simpl.
    by rewrite <- (Items_list_Update (followersList m) (KeyMsg key)), Hl.
Qed.

(** X14: the model keeps its two slices and its two list widgets in step:
    in every model [Update] can reach from [NewModel], each widget lists what
    the slice of its pane holds, given that resizing a widget or handing it a
    message leaves its items alone. *)
Theorem Update_lists_match_slices (m : tuiModel L) :
  Reachable ord m →
  Items (followingList m) = onlyFollowing m ∧
  Items (followersList m) = onlyFollowers m.
Proof.
  induction 1 as [|m msg Hm [IH1 IH2]]; [by simpl; rewrite !Items_list_New|].
  destruct msg as [w h|u f g [e|]|e|s|key|]; simpl; try done.
  - by rewrite !Items_SetWidth, !Items_SetHeight.
  - by rewrite !Items_SetItems.
  - by destruct (negb _).
  - destruct (isBulkActionInProgress m); [by destruct (isQuitKey key)|].
    destruct (bool_decide _); [by destruct (isQuitKey key)|].
    destruct (handleKey_items m key) as (-> & -> & -> & ->). done.
Qed.

End widget_more.

(** ** Witnesses of the further properties, on the plain list widget *)

(** Witness of X5: the ready model after [a], where the bulk flag is set. *)
Lemma Update_reachable_invariants_witness :
  let m := (step readyModel (tui.KeyMsg "a")).1 in
  (tui.loading m = true → tui.err m = None) ∧
  (tui.activePane m = tui.followingPane ∨ tui.activePane m = tui.followersPane) ∧
  (tui.isBulkActionInProgress m = true →
     tui.statusMessage m = "Bulk unfollowing all users..." ∨
     tui.statusMessage m = "Bulk following all users...").
Proof.
  apply (Update_reachable_invariants (L:=tui.plainList) canonicalOrder
           (step readyModel (tui.KeyMsg "a")).1).
  apply (Reachable_Update canonicalOrder readyModel).
  apply (Reachable_Update canonicalOrder model0).
  apply Reachable_NewModel.
Defined.

(** Witness of X6: [ctrl+c] during a bulk action. *)
Lemma Update_quit_from_any_state_witness :
  let m := (step readyModel (tui.KeyMsg "a")).1 in
  step m (tui.KeyMsg "ctrl+c") = (tui.set_quitting true m, Some tui.Quit).
Proof.
  apply (Update_quit_from_any_state (L:=tui.plainList) canonicalOrder
           (step readyModel (tui.KeyMsg "a")).1 "ctrl+c").
  reflexivity.
Defined.

(** Witness of X7: a load completes after [q]. *)
Lemma Update_never_clears_quitting_witness :
  let m := (step readyModel (tui.KeyMsg "q")).1 in
  tui.quitting (step m (tui.dataLoadedMsg "alice" [] [] None)).1 = true.
Proof.
  apply (Update_never_clears_quitting (L:=tui.plainList) canonicalOrder
           (step readyModel (tui.KeyMsg "q")).1 (tui.dataLoadedMsg "alice" [] [] None)).
  reflexivity.
Defined.

(** Witness of X8: the refresh key after a failed load. *)
Lemma Update_keeps_stored_error_witness :
  let m := (step model0 (tui.errorMsg (Some (errorString "boom")))).1 in
  tui.err (step m (tui.KeyMsg "r")).1 = Some (errorString "boom").
Proof.
  apply (Update_keeps_stored_error (L:=tui.plainList) canonicalOrder
           (step model0 (tui.errorMsg (Some (errorString "boom")))).1
           (tui.KeyMsg "r") (errorString "boom")).
  reflexivity.
Defined.

(** Witness of X9: [tab] then [shift+tab] on the ready model. *)
Lemma Update_pane_switch_twice_witness :
  tui.activePane (step readyModel (tui.KeyMsg "tab")).1 ≠ tui.activePane readyModel ∧
  step (step readyModel (tui.KeyMsg "tab")).1 (tui.KeyMsg "shift+tab") = (readyModel, None).
Proof.
  apply (Update_pane_switch_twice (L:=tui.plainList) canonicalOrder
           readyModel "tab" "shift+tab"); try reflexivity.
  - left. reflexivity.
  - left. reflexivity.
  - right. reflexivity.
Defined.

(** Witness of X10: [enter] on the ready model, whose cursor is on [x]. *)
Lemma Update_enter_acts_on_selected_witness :
  ∃ action : tui.Prog tui.Msg,
    step readyModel (tui.KeyMsg "enter")
    = (tui.set_loading true readyModel,
       Some (tui.BatchCmd [tui.Func action; tui.loadDataCmd canonicalOrder])) ∧
    tui.run (mockClient None) action ()
    = (tui.statusMsg "Unfollowed x!", (), [tui.UnfollowCall "x"]).
Proof.
  exact (Update_enter_acts_on_selected (L:=tui.plainList) (mockClient None)
           canonicalOrder readyModel () eq_refl eq_refl).
Defined.

(** Witness of X11: [a] on the ready model, whose Following pane lists [x]
    and [y]. *)
Lemma Update_bulk_acts_on_every_item_witness :
  ∃ bulk : tui.Prog tui.Msg,
    step readyModel (tui.KeyMsg "a")
    = (tui.set_statusMessage "Bulk unfollowing all users..."
         (tui.set_isBulkActionInProgress true readyModel), Some (tui.Func bulk)) ∧
    tui.run (mockClient None) bulk ()
    = (tui.statusMsg "Bulk unfollow complete!", (),
       [tui.UnfollowCall "x"; tui.UnfollowCall "y"]).
Proof.
  exact (Update_bulk_acts_on_every_item (L:=tui.plainList) (mockClient None)
           canonicalOrder readyModel () eq_refl eq_refl).
Defined.

(** Witness of X14: the ready model after a resize and a cursor key. *)
Lemma Update_lists_match_slices_witness :
  let m := (step (step readyModel (tui.WindowSizeMsg 80 24)).1 (tui.KeyMsg "down")).1 in
  tui.Items (tui.followingList m) = tui.onlyFollowing m ∧
  tui.Items (tui.followersList m) = tui.onlyFollowers m.
Proof.
  apply (Update_lists_match_slices (L:=tui.plainList) canonicalOrder
           (step (step readyModel (tui.WindowSizeMsg 80 24)).1 (tui.KeyMsg "down")).1).
  apply (Reachable_Update canonicalOrder (step readyModel (tui.WindowSizeMsg 80 24)).1).
  apply (Reachable_Update canonicalOrder readyModel).
  apply (Reachable_Update canonicalOrder model0).
  apply Reachable_NewModel.
Defined.
